(** * Anki LLM interactive quiz: the conversation / streaming session core

  A shallow embedding of the session logic of [src/__init__.py]
  (class [LLMQuizDialog]) and the properties of its specification.

  Python values are modelled the way the code handles them:
    - a [str] is a sequence of Unicode code points ([list N]);
    - [bytes] is a sequence of octets ([list byte]);
    - the dictionaries and lists produced by [json.loads] and
    [response.json()] are values of the inductive type [pyval], and
    the dynamically typed operations applied to them ([in], [x[k]],
    [.get], truthiness, [+=]) return a [result] that is either a value
    or the exception Python raises;
    - the dialog is a record, its methods are state-passing functions and
    the calls made to the outside world ([requests.post], [time.sleep],
    callbacks posted with [mw.taskman.run_on_main]) are logged, in
    program order, in a trace of [effect]s; what a posted callback does
    when the main thread runs it is given by [run_callback];
    - a response is received to its end: a streamed body that never
    ends is outside the model.

  Library functions that are not part of the repository
  ([json.loads], [str.lower], [str.format]) are parameters of the
  model. *)

From Stdlib Require Import Strings.String Strings.Ascii Strings.Byte Floats.SpecFloat.
From Stdlib Require Import Numbers.DecimalString.
From Stdlib Require Import List ZArith NArith Bool Lia.
Import ListNotations.

Set Implicit Arguments.
Set Warnings "-register-all".

(** ** Python strings *)

Module PyStr.

Definition char := N.
Definition str := list char.

(** An ASCII literal of the source, as a [str]. *)
Definition lit (s : string) : str :=
  map N_of_ascii (list_ascii_of_string s).

Fixpoint eqb (a b : str) : bool :=
  match a, b with
  | [], [] => true
  | x :: a', y :: b' => N.eqb x y && eqb a' b'
  | _, _ => false
  end.

(** [s.startswith(p)] *)
Fixpoint startswith (p s : str) : bool :=
  match p, s with
  | [], _ => true
  | x :: p', y :: s' => N.eqb x y && startswith p' s'
  | _ :: _, [] => false
  end.

(** [s.find(p)]: index of the first occurrence of [p] in [s]. *)
Fixpoint find (p s : str) : option nat :=
  if startswith p s then Some 0
  else match s with
       | [] => None
       | _ :: s' => option_map S (find p s')
       end.

(** [p in s] for two strings. *)
Definition contains (p s : str) : bool :=
  match find p s with Some _ => true | None => false end.

(** [str.isspace] for one code point (the table of CPython's
    [_PyUnicode_IsWhitespace]). *)
Definition isspace (c : char) : bool :=
  ((9 <=? c) && (c <=? 13) || (28 <=? c) && (c <=? 32)
   || (c =? 133) || (c =? 160) || (c =? 5760)
   || (8192 <=? c) && (c <=? 8202)
   || (c =? 8232) || (c =? 8233) || (c =? 8239) || (c =? 8287)
   || (c =? 12288))%N.

Fixpoint dropwhile (f : char -> bool) (s : str) : str :=
  match s with
  | [] => []
  | c :: s' => if f c then dropwhile f s' else s
  end.

(** [s.lstrip(chars)] with a one-character set, [s.lstrip()],
    [s.rstrip()] and [s.strip()]. *)
Definition lstrip_char (c : char) (s : str) : str := dropwhile (N.eqb c) s.
Definition lstrip (s : str) : str := dropwhile isspace s.
Definition rstrip (s : str) : str := rev (dropwhile isspace (rev s)).
Definition strip (s : str) : str := rstrip (lstrip s).

(** [s.split(sep)] for a one-character separator: never empty. *)
Fixpoint split (sep : char) (s : str) : list str :=
  match s with
  | [] => [[]]
  | c :: s' =>
      if N.eqb c sep then [] :: split sep s'
      else match split sep s' with
           | [] => [[c]]
           | w :: ws => (c :: w) :: ws
           end
  end.

(** [sep.join(parts)] *)
Fixpoint join (sep : str) (parts : list str) : str :=
  match parts with
  | [] => []
  | [w] => w
  | w :: ws => w ++ sep ++ join sep ws
  end.

(** [s[:n]] and [s[n:]] *)
Definition slice_to (n : nat) (s : str) : str := firstn n s.
Definition slice_from (n : nat) (s : str) : str := skipn n s.

End PyStr.

Import PyStr.

Definition LT : char := 60%N.      (* '<' *)
Definition GT : char := 62%N.      (* '>' *)
Definition NL : char := 10%N.      (* '\n' *)

(** ** The two regular expressions of [clean_response_text] *)

Module Re.

(** [re.sub(pattern, '', s)]: the string is scanned from the left; at
    each position the pattern is tried; a match of [n >= 1] characters
    is deleted and the scan resumes after it, otherwise the character
    is kept.  [match_at s] is the length of the match of the pattern
    at the head of [s].  [skip] counts the characters of the current
    match that are still to be dropped. *)
Fixpoint sub_delete (match_at : str -> option nat) (skip : nat) (s : str) : str :=
  match s with
  | [] => []
  | c :: s' =>
      match skip with
      | S k => sub_delete match_at k s'
      | O =>
          match match_at s with
          | Some (S n) => sub_delete match_at n s'
          | _ => c :: sub_delete match_at 0 s'
          end
      end
  end.

Definition think_open : str := lit "<think>".
Definition think_close : str := lit "</think>".

(** [<think>.*?</think>] with [re.DOTALL]: the opening tag, then the
    shortest run of any characters (newlines included) that is
    followed by the closing tag. *)
Definition match_think (s : str) : option nat :=
  if startswith think_open s then
    match find think_close (skipn (length think_open) s) with
    | Some i => Some (length think_open + i + length think_close)
    | None => None
    end
  else None.

(** Length of the longest prefix without ['>'], and whether a ['>']
    follows it. *)
Fixpoint run_to_gt (s : str) : nat * bool :=
  match s with
  | [] => (0, false)
  | c :: s' =>
      if N.eqb c GT then (0, true)
      else let '(n, closed) := run_to_gt s' in (S n, closed)
  end.

(** [<[^>]+>]: ['<'], one or more characters other than ['>'], ['>']. *)
Definition match_tag (s : str) : option nat :=
  match s with
  | c :: s' =>
      if N.eqb c LT then
        match run_to_gt s' with
        | (S n, true) => Some (S (S (S n)))
        | _ => None
        end
      else None
  | [] => None
  end.

End Re.

(** [LLMQuizDialog.clean_response_text] *)
Definition clean_response_text (text : str) : str :=
  let cleaned := Re.sub_delete Re.match_think 0 text in
  let cleaned := lstrip_char NL cleaned in
  let cleaned := Re.sub_delete Re.match_tag 0 cleaned in
  strip cleaned.


(** ** Python values, exceptions and the dynamically typed operations *)

Module Py.

(** The values [json.loads] and [response.json()] can return.  A [dict]
    is an association list; the dictionaries built by the JSON decoder
    have pairwise distinct keys, all of them strings. *)
Inductive pyval :=
| PNone
| PBool (b : bool)
| PInt (z : Z)
| PFloat (f : spec_float)
| PStr (s : str)
| PList (l : list pyval)
| PDict (d : list (str * pyval)).

Inductive exn :=
| KeyError (key : pyval)
| TypeError
| AttributeError
| IndexError
| ValueError
| JSONDecodeError                    (* json.JSONDecodeError *)
| RecursionError
| NameError
| APIKeyError (msg : str)            (* class APIKeyError(LLMError) *)
| ConnectionError (msg : str)        (* class ConnectionError(LLMError) *)
| ConfigurationError (msg : str)     (* class ConfigurationError(LLMError) *)
| TransportError (msg : str).        (* any exception of the HTTP transport *)

Inductive result (A : Type) :=
| Ok (a : A)
| Raise (e : exn).

Arguments Ok {A} a.
Arguments Raise {A} e.

Definition bind {A B} (r : result A) (k : A -> result B) : result B :=
  match r with
  | Ok a => k a
  | Raise e => Raise e
  end.

(** [bool(v)] *)
Definition truthy (v : pyval) : bool :=
  match v with
  | PNone => false
  | PBool b => b
  | PInt z => negb (Z.eqb z 0)
  | PFloat (S754_zero _) => false
  | PFloat _ => true
  | PStr s => match s with [] => false | _ => true end
  | PList l => match l with [] => false | _ => true end
  | PDict d => match d with [] => false | _ => true end
  end.

Fixpoint lookup (key : str) (d : list (str * pyval)) : option pyval :=
  match d with
  | [] => None
  | (k, v) :: d' => if PyStr.eqb key k then Some v else lookup key d'
  end.

Definition is_str (key : str) (v : pyval) : bool :=
  match v with
  | PStr s => PyStr.eqb key s
  | _ => false
  end.

(** [key in v] for a string [key] *)
Definition contains (key : str) (v : pyval) : result bool :=
  match v with
  | PDict d => Ok (match lookup key d with Some _ => true | None => false end)
  | PList l => Ok (existsb (is_str key) l)
  | PStr s => Ok (PyStr.contains key s)
  | _ => Raise TypeError
  end.

(** [v[key]] for a string [key] *)
Definition getitem (v : pyval) (key : str) : result pyval :=
  match v with
  | PDict d =>
      match lookup key d with
      | Some x => Ok x
      | None => Raise (KeyError (PStr key))
      end
  | _ => Raise TypeError
  end.

(** [v[0]] *)
Definition getitem0 (v : pyval) : result pyval :=
  match v with
  | PList l => match l with x :: _ => Ok x | [] => Raise IndexError end
  | PStr s => match s with c :: _ => Ok (PStr [c]) | [] => Raise IndexError end
  | PDict _ => Raise (KeyError (PInt 0))
  | _ => Raise TypeError
  end.

(** [v.get(key, default)] *)
Definition get (v : pyval) (key : str) (default : pyval) : result pyval :=
  match v with
  | PDict d =>
      match lookup key d with
      | Some x => Ok x
      | None => Ok default
      end
  | _ => Raise AttributeError
  end.

End Py.

Import Py.

Notation "x <- c1 ;; c2" := (Py.bind c1 (fun x => c2))
  (at level 61, c1 at next level, right associativity).

(** ** [bytes.decode('utf-8')] *)

Definition bytes := list byte.

Definition continuation (b : N) : bool := ((128 <=? b) && (b <=? 191))%N.

Definition in_range (lo hi b : N) : bool := ((lo <=? b) && (b <=? hi))%N.

(** Strict UTF-8: shortest forms only, no surrogates, nothing above
    U+10FFFF.  [None] stands for [UnicodeDecodeError]. *)
Fixpoint utf8_decode (l : list N) : option str :=
  match l with
  | [] => Some []
  | b0 :: r0 =>
      if (b0 <? 128)%N then option_map (cons b0) (utf8_decode r0)
      else match r0 with
      | [] => None
      | b1 :: r1 =>
          if in_range 194 223 b0 then
            if continuation b1
            then option_map (cons ((b0 - 192) * 64 + (b1 - 128))%N) (utf8_decode r1)
            else None
          else match r1 with
          | [] => None
          | b2 :: r2 =>
              if in_range 224 239 b0 then
                if (if (b0 =? 224)%N then in_range 160 191 b1
                    else if (b0 =? 237)%N then in_range 128 159 b1
                    else continuation b1) && continuation b2
                then option_map
                       (cons ((b0 - 224) * 4096 + (b1 - 128) * 64 + (b2 - 128))%N)
                       (utf8_decode r2)
                else None
              else match r2 with
              | [] => None
              | b3 :: r3 =>
                  if in_range 240 244 b0 then
                    if (if (b0 =? 240)%N then in_range 144 191 b1
                        else if (b0 =? 244)%N then in_range 128 143 b1
                        else continuation b1) && continuation b2 && continuation b3
                    then option_map
                           (cons ((b0 - 240) * 262144 + (b1 - 128) * 4096
                                  + (b2 - 128) * 64 + (b3 - 128))%N)
                           (utf8_decode r3)
                    else None
                  else None
              end
          end
      end
  end.

Definition decode (line : bytes) : option str :=
  utf8_decode (map Byte.to_N line).

(** The bytes of an ASCII literal. *)
Definition blit (s : string) : bytes := list_byte_of_string s.

(** ** The data of one quiz session *)

Inductive role := system | user | assistant.

(** One entry [{"role": ..., "content": ...}] of [conversation_history]. *)
Record message := { role_of : role; content : str }.

(** The add-on configuration; an absent key is [None] and is read with
    [config.get(key, default)]. *)
Record addon_config := {
  llm_studio_url : option str;
  openai_api_key : option str;
  use_openai : option bool;
  openai_model : option str;
  timeout : option Z;
  max_retries : option Z;
  stream_responses : option bool;
  system_prompt : option str
}.

Definition config_get {A} (o : option A) (default : A) : A :=
  match o with
  | Some x => x
  | None => default
  end.

(** The arguments of one [requests.post] call. *)
Record request := {
  url : str;
  headers : list (str * str);
  json_model : str;
  json_messages : list message;
  json_temperature : Z * Z;          (* numerator, denominator *)
  json_max_tokens : Z;
  json_stream : bool;
  arg_stream : bool;
  arg_timeout : Z
}.

(** How [response.iter_lines()] ends: exhausted, or with an exception of
    the transport raised from the iteration. *)
Inductive stream_end :=
| Exhausted
| Interrupted (e : exn).

(** A response received to its end: [iter_lines] is the finite sequence
    of the lines that [response.iter_lines()] yields before it ends the
    way [iter_end] says.  A body that goes on for ever has no value of
    this type. *)
Record response := {
  status_code : Z;
  iter_lines : list bytes;
  iter_end : stream_end;
  json : result pyval                (* [response.json()] *)
}.

(** What one [requests.post] call does. *)
Inductive post_result :=
| Returns (r : response)
| RaisesConnectionError              (* requests.exceptions.ConnectionError *)
| RaisesTimeout                      (* requests.exceptions.Timeout *)
| RaisesOther (e : exn).

(** The environment: the result of the [i]-th call of one send. *)
Definition network := nat -> request -> post_result.

(** Calls on the widgets of the dialog. *)
Inductive ui_call :=
| chat_display_clear
| chat_display_append (html : str)
| chat_display_append_error (e : exn)            (* "<b>Error:</b> " + str(e), [e] being
                                                    read when the callback runs *)
| chat_display_append_streaming_failed (e : exn) (* "<b>Error:</b> Streaming failed: " + str(e) *)
| append_stream_text_safely (text : str)
| input_field_clear
| send_button_setEnabled (enabled : bool)
| showInfo_missing_key (e : exn).

(** What the dialog does to the outside world, in program order. *)
Inductive effect :=
| call (c : ui_call)                 (* a direct call, on the main thread *)
| run_on_main (c : ui_call)          (* a callback posted by the worker thread *)
| requests_post (r : request)
| time_sleep (seconds : Z)
| thread_start (user_input : str).

Record LLMQuizDialog := {
  question : str;
  answer : str;
  config : addon_config;
  conversation_history : list message;
  is_streaming : bool;
  quiz_completed : bool;
  trace : list effect
}.

Definition set_history (h : list message) (d : LLMQuizDialog) : LLMQuizDialog :=
  {| question := question d; answer := answer d; config := config d;
     conversation_history := h;
     is_streaming := is_streaming d; quiz_completed := quiz_completed d;
     trace := trace d |}.

Definition set_is_streaming (b : bool) (d : LLMQuizDialog) : LLMQuizDialog :=
  {| question := question d; answer := answer d; config := config d;
     conversation_history := conversation_history d;
     is_streaming := b; quiz_completed := quiz_completed d;
     trace := trace d |}.

Definition set_quiz_completed (b : bool) (d : LLMQuizDialog) : LLMQuizDialog :=
  {| question := question d; answer := answer d; config := config d;
     conversation_history := conversation_history d;
     is_streaming := is_streaming d; quiz_completed := b;
     trace := trace d |}.

Definition emit (e : effect) (d : LLMQuizDialog) : LLMQuizDialog :=
  {| question := question d; answer := answer d; config := config d;
     conversation_history := conversation_history d;
     is_streaming := is_streaming d; quiz_completed := quiz_completed d;
     trace := trace d ++ [e] |}.

(** [self.conversation_history.append(m)] *)
Definition history_append (m : message) (d : LLMQuizDialog) : LLMQuizDialog :=
  set_history (conversation_history d ++ [m]) d.

Definition DQ : str := [34%N].       (* the double quote *)

(** [default_prompt] of [display_question] *)
Definition default_prompt : str :=
  join [NL]
    [ lit "You are an interactive flashcard tutor for Anki. Help the user learn the material effectively.";
      [];
      lit "    QUESTION: {question}";
      lit "    CORRECT ANSWER: {answer}";
      [];
      lit "    IMPORTANT INSTRUCTIONS:";
      lit "    1. NEVER repeat or restate the question - the user already sees it";
      lit "    2. Wait for the user's answer";
      lit "    3. Evaluate their answer as Correct, Partially Correct, or Incorrect";
      lit "    4. Give specific feedback on what they got right or wrong";
      lit "    5. If not fully correct, ask ONE specific guiding question";
      lit "    6. Keep responses under 3 sentences";
      lit "    7. Use ONLY English";
      lit "    8. Focus only on the card's content - don't introduce external information";
      [];
      lit "    Response Guidelines:";
      lit "    - Correct answer: Acknowledge briefly. Optionally add ONE relevant detail or follow-up question";
      lit "    - Partially correct: Identify what's right/wrong. Ask ONE specific question to guide them";
      lit "    - Incorrect: Gently correct and ask ONE guiding question to help them learn";
      [];
      lit "    NEVER start your response with " ++ DQ ++ lit "Question:" ++ DQ
        ++ lit ", " ++ DQ ++ lit "QUESTION:" ++ DQ
        ++ lit ", or restate the original question." ].

(** The prompt used when the template cannot be formatted. *)
Definition basic_prompt (q a : str) : str :=
  lit "The user is answering: '" ++ q ++ lit "'. Correct answer: '" ++ a
    ++ lit "'. Evaluate their response.".

(** [str(n)] for an integer *)
Definition str_of_Z (z : Z) : str :=
  lit (DecimalString.NilEmpty.string_of_int (Z.to_int z)).

Definition hosted_url : str := lit "https://api.openai.com/v1/chat/completions".
Definition default_local_url : str := lit "http://localhost:1234/v1/chat/completions".

(** The request of one attempt of [process_response] (the two
    [requests.post] calls of its [try] block). *)
Definition build_request (d : LLMQuizDialog) : request :=
  let use_openai := config_get (use_openai (config d)) false in
  let openai_key := config_get (openai_api_key (config d)) [] in
  let stream := config_get (stream_responses (config d)) true in
  let timeout := config_get (timeout (config d)) 30%Z in
  if use_openai && truthy (PStr openai_key) then
    {| url := hosted_url;
       headers := [ (lit "Content-Type", lit "application/json");
                    (lit "Authorization", lit "Bearer " ++ openai_key) ];
       json_model := config_get (openai_model (config d)) (lit "gpt-3.5-turbo");
       json_messages := conversation_history d;
       json_temperature := (1, 2)%Z;
       json_max_tokens := 150%Z;
       json_stream := stream;
       arg_stream := stream;
       arg_timeout := timeout |}
  else
    {| url := config_get (llm_studio_url (config d)) default_local_url;
       headers := [ (lit "Content-Type", lit "application/json") ];
       json_model := lit "local-model";
       json_messages := conversation_history d;
       json_temperature := (1, 2)%Z;
       json_max_tokens := 150%Z;
       json_stream := stream;
       arg_stream := stream;
       arg_timeout := timeout |}.

Definition unexpected_format : str :=
  lit "Error: Unexpected response format from LLM service.".

(** [LLMQuizDialog.extract_response_text] *)
Definition extract_response_text (response : pyval) : result pyval :=
  has_choices <- Py.contains (lit "choices") response ;;
  choices_ok <- (if has_choices
                 then choices <- getitem response (lit "choices") ;; Ok (truthy choices)
                 else Ok false) ;;
  let fallback := Ok (PStr unexpected_format) in
  if choices_ok then
    choices <- getitem response (lit "choices") ;;
    first <- getitem0 choices ;;
    has_message <- Py.contains (lit "message") first ;;
    if has_message then
      choices <- getitem response (lit "choices") ;;
      first <- getitem0 choices ;;
      message <- getitem first (lit "message") ;;
      getitem message (lit "content")
    else
      choices <- getitem response (lit "choices") ;;
      first <- getitem0 choices ;;
      has_text <- Py.contains (lit "text") first ;;
      if has_text then
        choices <- getitem response (lit "choices") ;;
        first <- getitem0 choices ;;
        getitem first (lit "text")
      else fallback
  else fallback.

(** ** The methods of the dialog *)

Section Dialog.

(** [json.loads]: the value decoded, or the exception raised
    ([JSONDecodeError] for a text that is not JSON; [ValueError] or
    [RecursionError] for an integer or a nesting beyond the limits of
    the interpreter). *)
Variable json_loads : str -> result pyval.

(** [str.lower] *)
Variable str_lower : str -> str.

(** [template.format(question=q, answer=a)] *)
Variable str_format : str -> str -> str -> result str.

(** [LLMQuizDialog.display_question]; the second component is the
    exception that leaves the method, if any. *)
Definition display_question (d : LLMQuizDialog) : LLMQuizDialog * option exn :=
  let d := set_history [] d in
  let d := emit (call chat_display_clear) d in
  let d := set_quiz_completed false d in
  let system_prompt_template := config_get (system_prompt (config d)) default_prompt in
  let finish (system_prompt : str) (d : LLMQuizDialog) :=
    let d := set_history [ {| role_of := system; content := system_prompt |} ] d in
    (emit (call (chat_display_append (lit "<b>Quiz:</b> Question: " ++ question d))) d, None) in
  match str_format system_prompt_template (question d) (answer d) with
  | Ok system_prompt => finish system_prompt d
  | Raise (KeyError key) =>
      let d := emit (call (showInfo_missing_key (KeyError key))) d in
      finish (basic_prompt (question d) (answer d)) d
  | Raise e => (d, Some e)
  end.

(** [LLMQuizDialog.send_message], [user_input] being the text of the
    input field. *)
Definition send_message (user_input : str) (d : LLMQuizDialog) : LLMQuizDialog :=
  if negb (truthy (PStr (strip user_input))) then d
  else
    let d := emit (call (chat_display_append (lit "<b>You:</b> " ++ user_input))) d in
    let d := history_append {| role_of := user; content := user_input |} d in
    let d := emit (call input_field_clear) d in
    let d := emit (call (send_button_setEnabled false)) d in
    emit (thread_start user_input) d.

(** The body of the [for] loop of [handle_stream_response] for one line:
    [Ok None] when the line is passed over, [Ok (Some content)] when
    [content] is added to [full_response], [Raise e] when an exception
    other than the two handled inside the loop ([UnicodeDecodeError]
    and [json.JSONDecodeError]) leaves the body. *)
Definition stream_line (line : bytes) : result (option str) :=
  match line with
  | [] => Ok None
  | _ =>
      match decode line with
      | None => Ok None
      | Some line_str =>
          if startswith (lit "data: ") line_str then
            let data := slice_from 6 line_str in
            match json_loads data with
            | Raise JSONDecodeError => Ok None   (* except json.JSONDecodeError *)
            | Raise e => Raise e
            | Ok json_data =>
                has_choices <- Py.contains (lit "choices") json_data ;;
                choices_ok <- (if has_choices
                               then choices <- getitem json_data (lit "choices") ;;
                                    Ok (truthy choices)
                               else Ok false) ;;
                if choices_ok then
                  choices <- getitem json_data (lit "choices") ;;
                  first <- getitem0 choices ;;
                  delta <- Py.get first (lit "delta") (PDict []) ;;
                  content <- Py.get delta (lit "content") (PStr []) ;;
                  if truthy content then
                    match content with
                    | PStr s => Ok (Some s)
                    | _ => Raise TypeError       (* full_response += content *)
                    end
                  else Ok None
                else Ok None
            end
          else Ok None
      end
  end.

(** The [for] loop: the text accumulated, the dialog, and the exception
    that ended the loop, if any. *)
Fixpoint stream_lines (lines : list bytes) (full_response : str) (d : LLMQuizDialog)
  : str * LLMQuizDialog * option exn :=
  match lines with
  | [] => (full_response, d, None)
  | line :: lines' =>
      match stream_line line with
      | Ok None => stream_lines lines' full_response d
      | Ok (Some content) =>
          stream_lines lines' (full_response ++ content)
            (emit (run_on_main (append_stream_text_safely content)) d)
      | Raise e => (full_response, d, Some e)
      end
  end.

(** The fragments the loop adds to [full_response], in order, and the
    exception that ends it: the loop seen without the dialog. *)
Fixpoint stream_deltas (lines : list bytes) : list str * option exn :=
  match lines with
  | [] => ([], None)
  | line :: lines' =>
      match stream_line line with
      | Ok None => stream_deltas lines'
      | Ok (Some content) =>
          let '(deltas, raised) := stream_deltas lines' in (content :: deltas, raised)
      | Raise e => ([], Some e)
      end
  end.

(** [LLMQuizDialog.handle_stream_response] *)
Definition handle_stream_response (resp : response) (d : LLMQuizDialog) : LLMQuizDialog :=
  let d := set_is_streaming true d in
  let d := emit (run_on_main (chat_display_append (lit "<b>Quiz:</b> "))) d in
  let '(full_response, d, raised) := stream_lines (iter_lines resp) [] d in
  let raised :=
    match raised, iter_end resp with
    | Some e, _ => Some e
    | None, Interrupted e => Some e
    | None, Exhausted => None
    end in
  let d :=
    match raised with
    | Some e => emit (run_on_main (chat_display_append_streaming_failed e)) d
    | None => d
    end in
  (* finally *)
  let d := set_is_streaming false d in
  if truthy (PStr full_response) then
    let cleaned_response := clean_response_text full_response in
    history_append {| role_of := assistant; content := cleaned_response |} d
  else d.

(** [LLMQuizDialog.add_assistant_response] *)
Definition add_assistant_response (response : str) (d : LLMQuizDialog) : LLMQuizDialog :=
  let cleaned_response := clean_response_text response in
  let cleaned_response :=
    if startswith (lit "question:") (str_lower cleaned_response)
       || PyStr.contains (str_lower (question d)) (slice_to 30 (str_lower cleaned_response))
    then
      let lines := split NL cleaned_response in
      join [NL]
        (filter (fun line => negb (startswith (lit "question:") (str_lower line))) lines)
    else cleaned_response in
  if truthy (PStr (strip cleaned_response)) then
    let d := history_append {| role_of := assistant; content := cleaned_response |} d in
    emit (run_on_main (chat_display_append (lit "<b>Quiz:</b> " ++ cleaned_response))) d
  else d.

(** How the [try] block of one iteration of [process_response] ends. *)
Inductive try_outcome :=
| Returned                           (* the [return] after a handled response *)
| CaughtConnectionError
| CaughtTimeout
| CaughtException (e : exn).

(** The [try] block of [process_response], for the [i]-th call. *)
Definition try_block (net : network) (i : nat) (d : LLMQuizDialog)
  : LLMQuizDialog * try_outcome :=
  let stream := config_get (stream_responses (config d)) true in
  let req := build_request d in
  let d := emit (requests_post req) d in
  match net i req with
  | RaisesConnectionError => (d, CaughtConnectionError)
  | RaisesTimeout => (d, CaughtTimeout)
  | RaisesOther e => (d, CaughtException e)
  | Returns resp =>
      if (status_code resp =? 401)%Z then
        (d, CaughtException (APIKeyError (lit "Invalid API key")))
      else if negb (status_code resp =? 200)%Z then
        (d, CaughtException
              (ConnectionError (lit "API error: " ++ str_of_Z (status_code resp))))
      else if stream then
        let d := handle_stream_response resp d in
        (emit (run_on_main (send_button_setEnabled true)) d, Returned)
      else
        match (result <- json resp ;; extract_response_text result) with
        | Raise e => (d, CaughtException e)
        | Ok (PStr llm_response) =>
            let d := add_assistant_response llm_response d in
            (emit (run_on_main (send_button_setEnabled true)) d, Returned)
        | Ok _ => (d, CaughtException TypeError)   (* re.sub on a non-string *)
        end
  end.

Definition connection_failed_html : str :=
  lit "<b>Error:</b> Connection failed. Make sure the LLM service is running.".
Definition timed_out_html : str :=
  lit "<b>Error:</b> Request timed out.".

(** The [while retries < max_retries] loop of [process_response] and the
    statement after it; [fuel] bounds the number of iterations and [i]
    counts the calls made so far.  [None]: out of fuel. *)
Fixpoint process_loop (fuel : nat) (net : network) (max_retries : Z)
    (i : nat) (retries : Z) (d : LLMQuizDialog) : option LLMQuizDialog :=
  match fuel with
  | O => None
  | S fuel' =>
      if (retries <? max_retries)%Z then
        let '(d, outcome) := try_block net i d in
        match outcome with
        | Returned => Some d
        | CaughtConnectionError =>
            let retries := (retries + 1)%Z in
            let d := if (retries >=? max_retries)%Z
                     then emit (run_on_main (chat_display_append connection_failed_html)) d
                     else d in
            let d := emit (time_sleep 1) d in
            process_loop fuel' net max_retries (S i) retries d
        | CaughtTimeout =>
            let retries := (retries + 1)%Z in
            let d := if (retries >=? max_retries)%Z
                     then emit (run_on_main (chat_display_append timed_out_html)) d
                     else d in
            let d := emit (time_sleep 1) d in
            process_loop fuel' net max_retries (S i) retries d
        | CaughtException e =>
            (* the callback posted reads [e] when it runs: [run_callback] *)
            let d := emit (run_on_main (chat_display_append_error e)) d in
            Some (emit (run_on_main (send_button_setEnabled true)) d)
        end
      else Some (emit (run_on_main (send_button_setEnabled true)) d)
  end.

(** [LLMQuizDialog.process_response] *)
Definition process_response (fuel : nat) (net : network) (d : LLMQuizDialog)
  : option LLMQuizDialog :=
  let max_retries := config_get (max_retries (config d)) 3%Z in
  process_loop fuel net max_retries 0 0%Z d.

End Dialog.

(** ** Reference instances of the three library functions

    They are used to run the model on concrete inputs.  Each one agrees
    with the Python function on the fragment described; the general
    theorems do not depend on them. *)

Module JsonSubset.

Definition is_ws (c : char) : bool :=
  ((c =? 32) || (c =? 9) || (c =? 10) || (c =? 13))%N.

Definition skip_ws (s : str) : str := dropwhile is_ws s.

Definition escape (c : char) : option char :=
  if (c =? 34)%N then Some 34%N          (* quote *)
  else if (c =? 92)%N then Some 92%N     (* backslash *)
  else if (c =? 47)%N then Some 47%N     (* slash *)
  else if (c =? 98)%N then Some 8%N      (* backspace *)
  else if (c =? 102)%N then Some 12%N    (* form feed *)
  else if (c =? 110)%N then Some 10%N    (* line feed *)
  else if (c =? 114)%N then Some 13%N    (* carriage return *)
  else if (c =? 116)%N then Some 9%N     (* tab *)
  else None.

(** The rest of a string literal, after its opening quote. *)
Fixpoint parse_string (s : str) (acc : str) : option (str * str) :=
  match s with
  | [] => None
  | c :: s' =>
      if (c =? 34)%N then Some (rev acc, s')
      else if (c =? 92)%N then
        match s' with
        | e :: s'' =>
            match escape e with
            | Some x => parse_string s'' (x :: acc)
            | None => None
            end
        | [] => None
        end
      else if (c <? 32)%N then None
      else parse_string s' (c :: acc)
  end.

Definition is_digit (c : char) : bool := ((48 <=? c) && (c <=? 57))%N.

Fixpoint digits (s : str) (acc : Z) : Z * str :=
  match s with
  | c :: s' =>
      if is_digit c then digits s' (acc * 10 + Z.of_N (c - 48))%Z
      else (acc, s)
  | [] => (acc, [])
  end.

(** An integer literal; a fraction or an exponent is outside the
    fragment. *)
Definition parse_int (s : str) : option (Z * str) :=
  let '(neg, s1) := match s with
                    | c :: s' => if (c =? 45)%N then (true, s') else (false, s)
                    | [] => (false, s)
                    end in
  match s1 with
  | c :: s' =>
      if is_digit c then
        let '(z, rest) := if (c =? 48)%N then (0%Z, s') else digits s1 0%Z in
        match rest with
        | x :: _ =>
            if ((x =? 46) || (x =? 101) || (x =? 69))%N then None
            else Some (if neg then (- z)%Z else z, rest)
        | [] => Some (if neg then (- z)%Z else z, rest)
        end
      else None
  | [] => None
  end.

(** [d[key] = v] *)
Fixpoint dict_set (key : str) (v : pyval) (d : list (str * pyval)) : list (str * pyval) :=
  match d with
  | [] => [(key, v)]
  | (k, x) :: d' =>
      if PyStr.eqb key k then (k, v) :: d' else (k, x) :: dict_set key v d'
  end.

(** The elements of an array after the first [ws], up to the closing
    bracket. *)
Fixpoint parse_items (fuel : nat) (value : str -> option (pyval * str))
    (s : str) (acc : list pyval) : option (list pyval * str) :=
  match fuel with
  | O => None
  | S fuel' =>
      match value s with
      | None => None
      | Some (v, r) =>
          match skip_ws r with
          | c :: r' =>
              if (c =? 44)%N then parse_items fuel' value r' (v :: acc)
              else if (c =? 93)%N then Some (rev (v :: acc), r')
              else None
          | [] => None
          end
      end
  end.

(** The members of an object, up to the closing brace. *)
Fixpoint parse_members (fuel : nat) (value : str -> option (pyval * str))
    (s : str) (acc : list (str * pyval)) : option (list (str * pyval) * str) :=
  match fuel with
  | O => None
  | S fuel' =>
      match skip_ws s with
      | q :: r =>
          if (q =? 34)%N then
            match parse_string r [] with
            | None => None
            | Some (key, r1) =>
                match skip_ws r1 with
                | colon :: r2 =>
                    if (colon =? 58)%N then
                      match value r2 with
                      | None => None
                      | Some (v, r3) =>
                          match skip_ws r3 with
                          | c :: r4 =>
                              if (c =? 44)%N
                              then parse_members fuel' value r4 (dict_set key v acc)
                              else if (c =? 125)%N
                              then Some (dict_set key v acc, r4)
                              else None
                          | [] => None
                          end
                      end
                    else None
                | [] => None
                end
            end
          else None
      | [] => None
      end
  end.

Fixpoint parse_value (fuel : nat) (s : str) : option (pyval * str) :=
  match fuel with
  | O => None
  | S fuel' =>
      match skip_ws s with
      | [] => None
      | c :: r =>
          if (c =? 34)%N then
            option_map (fun '(x, rest) => (PStr x, rest)) (parse_string r [])
          else if (c =? 123)%N then
            match skip_ws r with
            | x :: r' =>
                if (x =? 125)%N then Some (PDict [], r')
                else option_map (fun '(m, rest) => (PDict m, rest))
                       (parse_members (length r) (parse_value fuel') r [])
            | [] => None
            end
          else if (c =? 91)%N then
            match skip_ws r with
            | x :: r' =>
                if (x =? 93)%N then Some (PList [], r')
                else option_map (fun '(l, rest) => (PList l, rest))
                       (parse_items (length r) (parse_value fuel') r [])
            | [] => None
            end
          else if startswith (lit "true") (c :: r)
          then Some (PBool true, skipn 4 (c :: r))
          else if startswith (lit "false") (c :: r)
          then Some (PBool false, skipn 5 (c :: r))
          else if startswith (lit "null") (c :: r)
          then Some (PNone, skipn 4 (c :: r))
          else option_map (fun '(z, rest) => (PInt z, rest)) (parse_int (c :: r))
      end
  end.

(** The document of a text, if it is one of the fragment. *)
Definition document (s : str) : option pyval :=
  match parse_value (S (length s)) s with
  | Some (v, rest) =>
      match skip_ws rest with
      | [] => Some v
      | _ => None
      end
  | None => None
  end.

(** [json.loads] on the documents made of objects, arrays, strings
    without unicode escapes, integers, [true], [false] and [null],
    within the limits of the interpreter (digits of an integer, depth
    of nesting); it refuses every text that is not JSON with
    [JSONDecodeError]. *)
Definition json_loads (s : str) : result pyval :=
  match document s with
  | Some v => Ok v
  | None => Raise JSONDecodeError
  end.

End JsonSubset.

Module AsciiLower.

(** [str.lower] on strings of ASCII characters. *)
Definition str_lower (s : str) : str :=
  map (fun c => if ((65 <=? c) && (c <=? 90))%N then (c + 32)%N else c) s.

End AsciiLower.

Module FormatSubset.

(** The field name up to the closing brace; [None] when the field uses
    a conversion, a format specification, an attribute or an index, or
    when the brace is not closed. *)
Fixpoint field_name (s : str) (acc : str) : option (option (str * str)) :=
  match s with
  | [] => Some None
  | c :: s' =>
      if (c =? 125)%N then Some (Some (rev acc, s'))
      else if ((c =? 33) || (c =? 58) || (c =? 46) || (c =? 91) || (c =? 123))%N
      then None
      else field_name s' (c :: acc)
  end.

Definition is_digit (c : char) : bool := ((48 <=? c) && (c <=? 57))%N.

(** The value of a field of [format(question=q, answer=a)]: no
    positional argument is given. *)
Definition field_value (name q a : str) : result str :=
  if forallb is_digit name then Raise IndexError
  else if PyStr.eqb name (lit "question") then Ok q
  else if PyStr.eqb name (lit "answer") then Ok a
  else Raise (KeyError (PStr name)).

Fixpoint format_fuel (fuel : nat) (template q a : str) : option (result str) :=
  match fuel with
  | O => None
  | S fuel' =>
      match template with
      | [] => Some (Ok [])
      | c :: t =>
          if (c =? 123)%N then
            match t with
            | x :: t' =>
                if (x =? 123)%N then
                  option_map (fun r => s <- r ;; Ok (123%N :: s)) (format_fuel fuel' t' q a)
                else
                  match field_name t [] with
                  | None => None
                  | Some None => Some (Raise ValueError)
                  | Some (Some (name, rest)) =>
                      match field_value name q a with
                      | Raise e => Some (Raise e)
                      | Ok v =>
                          option_map (fun r => s <- r ;; Ok (v ++ s))
                            (format_fuel fuel' rest q a)
                      end
                  end
            | [] => Some (Raise ValueError)
            end
          else if (c =? 125)%N then
            match t with
            | x :: t' =>
                if (x =? 125)%N then
                  option_map (fun r => s <- r ;; Ok (125%N :: s)) (format_fuel fuel' t' q a)
                else Some (Raise ValueError)
            | [] => Some (Raise ValueError)
            end
          else option_map (fun r => s <- r ;; Ok (c :: s)) (format_fuel fuel' t q a)
      end
  end.

(** [template.format(question=q, answer=a)] for the templates whose
    replacement fields are plain names ([{question}], [{answer}],
    [{other}], [{}], [{0}]) and whose other braces are doubled or
    unbalanced.  A template outside this fragment is not modelled; this
    function maps it to [ValueError]. *)
Definition str_format (template q a : str) : result str :=
  match format_fuel (S (length template)) template q a with
  | Some r => r
  | None => Raise ValueError
  end.

End FormatSubset.

(** ** Notions used by the statements *)

(** [emit] for a list of effects. *)
Definition emit_all (es : list effect) (d : LLMQuizDialog) : LLMQuizDialog :=
  {| question := question d; answer := answer d; config := config d;
     conversation_history := conversation_history d;
     is_streaming := is_streaming d; quiz_completed := quiz_completed d;
     trace := trace d ++ es |}.

(** A call that failed with one of the two retried exceptions. *)
Definition transient (r : post_result) : bool :=
  match r with
  | RaisesConnectionError | RaisesTimeout => true
  | _ => false
  end.

(** The message shown when the last allowed call fails. *)
Definition transient_html (r : post_result) : str :=
  match r with
  | RaisesTimeout => timed_out_html
  | _ => connection_failed_html
  end.

(** The effects of [k] calls that failed and were followed by the
    one-second pause. *)
Definition failed_attempts (req : request) (k : nat) : list effect :=
  concat (repeat [requests_post req; time_sleep 1%Z] k).

Definition is_post (e : effect) : bool :=
  match e with
  | requests_post _ => true
  | _ => false
  end.

(** The number of [requests.post] calls of a trace. *)
Definition attempts (t : list effect) : nat := length (filter is_post t).

(** The pauses of a trace. *)
Definition sleeps (t : list effect) : list Z :=
  flat_map (fun e => match e with time_sleep s => [s] | _ => [] end) t.

(** The texts passed to [append_stream_text_safely], in order. *)
Definition streamed (t : list effect) : list str :=
  flat_map (fun e => match e with
                     | run_on_main (append_stream_text_safely text) => [text]
                     | _ => []
                     end) t.

Definition assistant_message (text : str) : message :=
  {| role_of := assistant; content := text |}.

(** The specification of the stream decoder, following the words of
    the specification: [choices[0].delta.content] of a parsed payload,
    when it is present and a non-empty string. *)
Definition chunk_content (v : pyval) : option str :=
  match v with
  | PDict d =>
      match lookup (lit "choices") d with
      | Some (PList (PDict first :: _)) =>
          match lookup (lit "delta") first with
          | Some (PDict delta) =>
              match lookup (lit "content") delta with
              | Some (PStr (c :: s)) => Some (c :: s)
              | _ => None
              end
          | _ => None
          end
      | _ => None
      end
  | _ => None
  end.

(** The payload of a line that is not blank, is text and carries the
    marker: what [json.loads] makes of the text after the marker. *)
Definition payload (json_loads : str -> result pyval) (line : bytes)
  : option (result pyval) :=
  match line with
  | [] => None
  | _ =>
      match decode line with
      | Some line_str =>
          if startswith (lit "data: ") line_str
          then Some (json_loads (skipn 6 line_str))
          else None
      | None => None
      end
  end.

Definition spec_deltas (json_loads : str -> result pyval) (lines : list bytes) : list str :=
  flat_map (fun line =>
              match payload json_loads line with
              | Some (Ok v) => match chunk_content v with Some c => [c] | None => [] end
              | _ => []
              end) lines.

(** The shape of a streaming chunk: an object; its [choices] member, if
    any, is falsy ([null], [false], zero, empty) or an array that
    begins with an object; the [delta] member of that object, if any,
    is an object; the [content] member of the delta, if any, is falsy
    or a string. *)
Definition is_chunk (v : pyval) : bool :=
  match v with
  | PDict d =>
      match lookup (lit "choices") d with
      | None => true
      | Some choices =>
          if truthy choices then
            match choices with
            | PList (PDict first :: _) =>
                match lookup (lit "delta") first with
                | None => true
                | Some (PDict delta) =>
                    match lookup (lit "content") delta with
                    | None => true
                    | Some content =>
                        negb (truthy content)
                        || match content with PStr _ => true | _ => false end
                    end
                | Some _ => false
                end
            | _ => false
            end
          else true
      end
  | _ => false
  end.

(** The two substitutions of [clean_response_text]. *)
Definition remove_think (text : str) : str := Re.sub_delete Re.match_think 0 text.
Definition remove_tags (text : str) : str := Re.sub_delete Re.match_tag 0 text.

(** No ['<'] of the string opens a tag: each one is followed at once by
    ['>'], or by the end of the string, or by no ['>'] at all. *)
Fixpoint tag_free (s : str) : Prop :=
  match s with
  | [] => True
  | c :: s' =>
      (c = LT -> match s' with x :: _ => x = GT | [] => True end \/ ~ In GT s')
      /\ tag_free s'
  end.

(** A reply as a sequence of pieces: text of the reply itself, a tag,
    or a reasoning span. *)
Inductive piece :=
| Text (s : str)
| Tag (w : str)
| Reasoning (body : str).

(** The text of a piece as the model sends it. *)
Definition render (p : piece) : str :=
  match p with
  | Text s => s
  | Tag w => LT :: w ++ [GT]
  | Reasoning body => Re.think_open ++ body ++ Re.think_close
  end.

(** What a piece contributes to the reply itself. *)
Definition reply_text (p : piece) : str :=
  match p with
  | Text s => s
  | _ => []
  end.

(** The text of a piece once the reasoning spans are taken out. *)
Definition without_reasoning (p : piece) : str :=
  match p with
  | Reasoning _ => []
  | _ => render p
  end.

(** A text without ['<']; a tag whose name is not empty, contains
    neither ['<'] nor ['>'] and is not [think]; a reasoning span whose
    body does not contain the closing tag. *)
Definition well_formed (p : piece) : Prop :=
  match p with
  | Text s => ~ In LT s
  | Tag w => w <> [] /\ ~ In LT w /\ ~ In GT w /\ w <> lit "think"
  | Reasoning body => find Re.think_close body = None
  end.

(** Every payload of the lines is refused as not being JSON, or has the
    shape of a chunk. *)
Definition chunks_only (json_loads : str -> result pyval) (lines : list bytes) : Prop :=
  Forall (fun line =>
            forall r, payload json_loads line = Some r ->
                      r = Raise JSONDecodeError
                      \/ exists v, r = Ok v /\ is_chunk v = true) lines.

(** A line the loop passes over whatever follows it: blank, not text,
    without the marker, or with a payload refused as not being JSON. *)
Definition noise (json_loads : str -> result pyval) (line : bytes) : Prop :=
  payload json_loads line = None
  \/ payload json_loads line = Some (Raise JSONDecodeError).

(** A literal in which each apostrophe stands for a double quote. *)
Definition jlit (s : string) : str :=
  map (fun c => if (c =? 39)%N then 34%N else c) (lit s).

Definition jblit (s : string) : bytes :=
  map (fun b => if Byte.eqb b x27 then x22 else b) (blit s).

(** How a streamed response fails, if it does: with the exception that
    ended the loop over its lines. *)
Definition stream_failure (json_loads : str -> result pyval) (resp : response) : option exn :=
  match snd (stream_deltas json_loads (iter_lines resp)), iter_end resp with
  | Some e, _ => Some e
  | None, Interrupted e => Some e
  | None, Exhausted => None
  end.

(** ** The states of a session *)

Section Session.

Variable json_loads : str -> result pyval.
Variable str_lower : str -> str.

(** One operation of the dialog after [display_question]. *)
Inductive step : LLMQuizDialog -> LLMQuizDialog -> Prop :=
| step_send_message (user_input : str) (d : LLMQuizDialog) :
    step d (send_message user_input d)
| step_process_response (fuel : nat) (net : network) (d d' : LLMQuizDialog) :
    process_response json_loads str_lower fuel net d = Some d' ->
    step d d'
| step_handle_stream_response (resp : response) (d : LLMQuizDialog) :
    step d (handle_stream_response json_loads resp d)
| step_add_assistant_response (response : str) (d : LLMQuizDialog) :
    step d (add_assistant_response str_lower response d).

Inductive reachable (d0 : LLMQuizDialog) : LLMQuizDialog -> Prop :=
| reachable_start : reachable d0 d0
| reachable_step (d d' : LLMQuizDialog) :
    reachable d0 d -> step d d' -> reachable d0 d'.

End Session.

Definition is_system (m : message) : bool :=
  match role_of m with
  | system => true
  | _ => false
  end.

(** The number of system messages of a history. *)
Definition system_count (h : list message) : nat := length (filter is_system h).

Definition user_or_assistant (m : message) : Prop :=
  role_of m = user \/ role_of m = assistant.

(** The history of [d'] is the history of [d] followed by messages of
    the user and of the assistant. *)
Definition appends (d d' : LLMQuizDialog) : Prop :=
  exists new, conversation_history d' = conversation_history d ++ new
              /\ Forall user_or_assistant new.

(** ** Concrete inputs *)

Module Example.

Definition no_config : addon_config :=
  {| llm_studio_url := None; openai_api_key := None; use_openai := None;
     openai_model := None; timeout := None; max_retries := None;
     stream_responses := None; system_prompt := None |}.

(** A dialog before [display_question], for a card and a configuration. *)
Definition new_dialog (cfg : addon_config) : LLMQuizDialog :=
  {| question := lit "What is the capital of France?";
     answer := lit "Paris";
     config := cfg;
     conversation_history := [];
     is_streaming := false;
     quiz_completed := false;
     trace := [] |}.

(** The session after [display_question]. *)
Definition session (cfg : addon_config) : LLMQuizDialog :=
  fst (display_question FormatSubset.str_format (new_dialog cfg)).

Definition line_Hel : bytes := jblit "data: {'choices':[{'delta':{'content':'Hel'}}]}".
Definition line_lo : bytes := jblit "data: {'choices':[{'delta':{'content':'lo'}}]}".
Definition line_DONE : bytes := blit "data: [DONE]".
Definition line_not_json : bytes := blit "data: not-json".
Definition line_5 : bytes := blit "data: 5".
Definition line_think : bytes :=
  jblit "data: {'choices':[{'delta':{'content':'<think>hm</think>'}}]}".

(** A streamed response with status 200. *)
Definition streamed_response (lines : list bytes) (e : stream_end) : response :=
  {| status_code := 200%Z; iter_lines := lines; iter_end := e;
     json := Raise ValueError |}.

(** A response with status 200 and a JSON body. *)
Definition json_response (body : string) : response :=
  {| status_code := 200%Z; iter_lines := []; iter_end := Exhausted;
     json := match JsonSubset.json_loads (jlit body) with
             | Ok v => Ok v
             | Raise _ => Raise ValueError
             end |}.

Definition status_response (status : Z) : response :=
  {| status_code := status; iter_lines := []; iter_end := Exhausted;
     json := Raise ValueError |}.

Definition with_max_retries (n : Z) : addon_config :=
  {| llm_studio_url := None; openai_api_key := None; use_openai := None;
     openai_model := None; timeout := None; max_retries := Some n;
     stream_responses := None; system_prompt := None |}.

Definition not_streaming : addon_config :=
  {| llm_studio_url := None; openai_api_key := None; use_openai := None;
     openai_model := None; timeout := None; max_retries := None;
     stream_responses := Some false; system_prompt := None |}.

(** The hosted provider is selected and the key is the empty string. *)
Definition hosted_without_key : addon_config :=
  {| llm_studio_url := None; openai_api_key := Some []; use_openai := Some true;
     openai_model := None; timeout := None; max_retries := None;
     stream_responses := None; system_prompt := None |}.

Definition with_template (template : str) : addon_config :=
  {| llm_studio_url := None; openai_api_key := None; use_openai := None;
     openai_model := None; timeout := None; max_retries := None;
     stream_responses := None; system_prompt := Some template |}.

(** Two connection failures, then the three lines of the
    specification. *)
Definition two_failures_then_success : network :=
  fun i _ =>
    match i with
    | 0 | 1 => RaisesConnectionError
    | _ => Returns (streamed_response [line_Hel; line_lo; line_DONE] Exhausted)
    end.

Definition always_timeout : network := fun _ _ => RaisesTimeout.

Definition always (resp : response) : network := fun _ _ => Returns resp.

End Example.

(** ** Notions used by the further statements *)

(** An effect on the widgets, made directly or posted to the main
    thread. *)
Definition is_ui (e : effect) : bool :=
  match e with
  | call _ | run_on_main _ => true
  | _ => false
  end.

Definition is_sleep (e : effect) : bool :=
  match e with
  | time_sleep _ => true
  | _ => false
  end.

Definition enable_send : effect := run_on_main (send_button_setEnabled true).

(** What the main thread does when it runs a posted callback: the call
    on the widget, or an exception. *)
Inductive callback_outcome :=
| Calls (c : ui_call)
| CallbackRaises (e : exn).

(** Running a callback posted with [run_on_main].  The callback of the
    generic handler of [process_response] is
    [lambda: self.chat_display.append(... str(e) ...)]: it reads the
    variable [e] of the [except] clause when it runs, and Python
    unbinds that variable when the clause ends (the [break] that
    follows the posting).  [handler_ended] tells whether the clause
    has ended when the callback runs.  The other callbacks hold their
    text themselves. *)
Definition run_callback (handler_ended : bool) (c : ui_call) : callback_outcome :=
  match c with
  | chat_display_append_error e =>
      if handler_ended then CallbackRaises NameError else Calls c
  | _ => Calls c
  end.

(** [l] is [l'] with some of its elements taken out. *)
Inductive subsequence {A : Type} : list A -> list A -> Prop :=
| subsequence_nil : subsequence [] []
| subsequence_drop (x : A) (l l' : list A) : subsequence l l' -> subsequence l (x :: l')
| subsequence_keep (x : A) (l l' : list A) :
    subsequence l l' -> subsequence (x :: l) (x :: l').

(** What a history becomes in one send: nothing more, or one more
    assistant message. *)
Definition at_most_one_reply (h h' : list message) : Prop :=
  h' = h \/ exists text, h' = h ++ [assistant_message text].

(** ** Opening the dialog *)

(** [l[i]] for a list and an integer: a negative index counts from the
    end. *)
Definition list_getitem {A : Type} (l : list A) (i : Z) : result A :=
  let n := Z.of_nat (length l) in
  let j := if (i <? 0)%Z then (i + n)%Z else i in
  if (0 <=? j)%Z && (j <? n)%Z then
    match nth_error l (Z.to_nat j) with
    | Some x => Ok x
    | None => Raise IndexError
    end
  else Raise IndexError.

(** How [LLMQuizDialog.__init__] ends: the dialog is ready, or
    [showCritical] is called and the dialog is rejected; [prefixed]
    tells whether the message begins with [Error initializing quiz:]. *)
Inductive init_outcome :=
| Opened (d : LLMQuizDialog)
| Rejected (e : exn) (prefixed : bool).

(** The two [except] clauses of [__init__]. *)
Definition reject (e : exn) : init_outcome :=
  match e with
  | ConfigurationError _ => Rejected e false
  | _ => Rejected e true
  end.

Definition out_of_range : exn :=
  ConfigurationError (lit "Field indexes in config are out of range for this note type.").

(** [LLMQuizDialog.__init__], for the fields of the note of the card,
    the two index settings and the rest of the configuration.  The
    call of [setup_ui] clears the chat display. *)
Definition init (str_format : str -> str -> str -> result str)
    (fields : list str) (question_field_index answer_field_index : option Z)
    (cfg : addon_config) : init_outcome :=
  let question_idx := config_get question_field_index 0%Z in
  let answer_idx := config_get answer_field_index 1%Z in
  if (question_idx >=? Z.of_nat (length fields))%Z
     || (answer_idx >=? Z.of_nat (length fields))%Z
  then reject out_of_range
  else
    match list_getitem fields question_idx with
    | Raise e => reject e
    | Ok q =>
        match list_getitem fields answer_idx with
        | Raise e => reject e
        | Ok a =>
            let d := {| question := q; answer := a; config := cfg;
                        conversation_history := [];
                        is_streaming := false; quiz_completed := false;
                        trace := [] |} in
            let d := emit (call chat_display_clear) d in
            match display_question str_format d with
            | (d', None) => Opened d'
            | (_, Some e) => reject e
            end
        end
    end.

(** ** The configuration dialog *)

Module ConfigDialog.

(** The contents of the widgets when [save_settings] is called. *)
Record form := {
  lm_studio_url : str;
  use_openai : bool;
  openai_key : str;
  openai_model : str;
  system_prompt : str;
  stream_responses : bool;
  debug_mode : bool;
  question_idx : str;
  answer_idx : str;
  timeout : str;
  max_retries : str
}.

(** The dictionary [new_config]. *)
Record new_config := {
  cfg_llm_studio_url : str;
  cfg_use_openai : bool;
  cfg_openai_api_key : str;
  cfg_openai_model : str;
  cfg_system_prompt : str;
  cfg_stream_responses : bool;
  cfg_debug_mode : bool;
  cfg_question_field_index : Z;
  cfg_answer_field_index : Z;
  cfg_timeout : Z;
  cfg_max_retries : Z
}.

Inductive settings_effect :=
| showInfo_using_defaults
| save_config (c : new_config)
| showInfo_saved
| accept.

Section SaveSettings.

(** [int(text)]; [None] stands for [ValueError]. *)
Variable py_int : str -> option Z.

(** The four conversions of the [try] block, in order; [None] when one
    of them raises. *)
Definition numeric_fields (f : form) : option (Z * Z * Z * Z) :=
  match py_int (question_idx f) with
  | None => None
  | Some q =>
      match py_int (answer_idx f) with
      | None => None
      | Some a =>
          match py_int (timeout f) with
          | None => None
          | Some t =>
              match py_int (max_retries f) with
              | None => None
              | Some r => Some (q, a, t, r)
              end
          end
      end
  end.

(** [ConfigDialog.save_settings] *)
Definition save_settings (f : form) : list settings_effect :=
  let build (numbers : Z * Z * Z * Z) :=
    let '(q, a, t, r) := numbers in
    {| cfg_llm_studio_url := lm_studio_url f;
       cfg_use_openai := use_openai f;
       cfg_openai_api_key := openai_key f;
       cfg_openai_model := openai_model f;
       cfg_system_prompt := system_prompt f;
       cfg_stream_responses := stream_responses f;
       cfg_debug_mode := debug_mode f;
       cfg_question_field_index := q;
       cfg_answer_field_index := a;
       cfg_timeout := t;
       cfg_max_retries := r |} in
  match numeric_fields f with
  | Some numbers => [save_config (build numbers); showInfo_saved; accept]
  | None =>
      [showInfo_using_defaults; save_config (build (0, 1, 30, 3)%Z); showInfo_saved; accept]
  end.

End SaveSettings.

(** The configuration saved by a run of [save_settings]. *)
Definition saved (es : list settings_effect) : option new_config :=
  match flat_map (fun e => match e with save_config c => [c] | _ => [] end) es with
  | [c] => Some c
  | _ => None
  end.

End ConfigDialog.

(** ** The button on the card *)

Definition button_html (position : str) : str :=
  join [NL]
    [ [];
      jlit "        <div style='" ++ position ++ jlit "'>";
      jlit "            <button id='llm-quiz-btn' onclick='pycmd(" ++ lit "'llm_quiz'"
        ++ jlit ");' style='";
      lit "                background-color: #4CAF50;";
      lit "                border: none;";
      lit "                color: white;";
      lit "                padding: 10px 20px;";
      lit "                text-align: center;";
      lit "                text-decoration: none;";
      lit "                display: inline-block;";
      lit "                font-size: 16px;";
      lit "                margin: 10px 2px;";
      lit "                cursor: pointer;";
      jlit "                border-radius: 5px;'>";
      lit "                Study with LLM";
      lit "            </button>";
      lit "        </div>";
      lit "        " ].

(** [add_llm_button]; the card is not used. *)
Definition add_llm_button (html kind : str) : str :=
  if PyStr.eqb kind (lit "reviewQuestion") || PyStr.eqb kind (lit "reviewAnswer") then
    let position :=
      if PyStr.eqb kind (lit "reviewQuestion")
      then lit "text-align: right;"
      else lit "text-align: center; margin-top: 20px;" in
    html ++ button_html position
  else html.

(** * Properties *)

(** ** The trace and the fields of the dialog *)

Lemma emit_emit_all (e : effect) (d : LLMQuizDialog) : emit e d = emit_all [e] d.
Proof. reflexivity. Qed.

Lemma emit_all_nil (d : LLMQuizDialog) : emit_all [] d = d.
Proof. destruct d; unfold emit_all; simpl. now rewrite app_nil_r. Qed.

Lemma emit_all_app (es1 es2 : list effect) (d : LLMQuizDialog) :
  emit_all es2 (emit_all es1 d) = emit_all (es1 ++ es2) d.
Proof. unfold emit_all; simpl. now rewrite app_assoc. Qed.

Lemma build_request_emit_all (es : list effect) (d : LLMQuizDialog) :
  build_request (emit_all es d) = build_request d.
Proof. reflexivity. Qed.

Lemma failed_attempts_S (req : request) (k : nat) :
  failed_attempts req (S k) = [requests_post req; time_sleep 1%Z] ++ failed_attempts req k.
Proof. reflexivity. Qed.

Lemma attempts_app (t1 t2 : list effect) : attempts (t1 ++ t2) = attempts t1 + attempts t2.
Proof. unfold attempts. now rewrite filter_app, length_app. Qed.

Lemma attempts_failed (req : request) (k : nat) : attempts (failed_attempts req k) = k.
Proof.
  induction k as [|k IH]; [reflexivity|].
  rewrite failed_attempts_S, attempts_app, IH. reflexivity.
Qed.

Lemma sleeps_app (t1 t2 : list effect) : sleeps (t1 ++ t2) = sleeps t1 ++ sleeps t2.
Proof. unfold sleeps. now rewrite flat_map_app. Qed.

Lemma sleeps_failed (req : request) (k : nat) : sleeps (failed_attempts req k) = repeat 1%Z k.
Proof.
  induction k as [|k IH]; [reflexivity|].
  rewrite failed_attempts_S, sleeps_app, IH. reflexivity.
Qed.

(** ** The retry loop *)

Section Retry.

Variable json_loads : str -> result pyval.
Variable str_lower : str -> str.

(** A call that fails with a retried exception leaves the [try] block
    through the matching handler, the request being the only effect. *)
Lemma try_block_transient (net : network) (i : nat) (d : LLMQuizDialog) :
  transient (net i (build_request d)) = true ->
  exists o, try_block json_loads str_lower net i d = (emit (requests_post (build_request d)) d, o)
            /\ (o = CaughtConnectionError /\ net i (build_request d) = RaisesConnectionError
                \/ o = CaughtTimeout /\ net i (build_request d) = RaisesTimeout).
Proof.
  unfold try_block. destruct (net i (build_request d)); simpl; try discriminate; intros _.
  - eexists; split; [reflexivity | now left].
  - eexists; split; [reflexivity | now right].
Qed.

(** [k] failed calls that do not exhaust the retries: the loop goes on
    with [k] more calls made and [k] more retries counted. *)
Lemma loop_failures (net : network) (maxr : Z) :
  forall (k fuel i : nat) (r : Z) (d : LLMQuizDialog),
    (forall j, j < k -> transient (net (i + j) (build_request d)) = true) ->
    (r + Z.of_nat k < maxr)%Z ->
    process_loop json_loads str_lower (k + fuel) net maxr i r d
    = process_loop json_loads str_lower fuel net maxr (i + k) (r + Z.of_nat k)%Z
        (emit_all (failed_attempts (build_request d) k) d).
Proof.
  induction k as [|k IH]; intros fuel i r d Hnet Hlt.
  - simpl. rewrite emit_all_nil. f_equal; [lia | lia].
  - assert (H0 : transient (net i (build_request d)) = true).
    { specialize (Hnet 0). rewrite Nat.add_0_r in Hnet. apply Hnet. lia. }
    destruct (try_block_transient net i d H0) as (o & Ho & Hcase).
    change (S k + fuel) with (S (k + fuel)). simpl process_loop.
    replace (r <? maxr)%Z with true by (symmetry; apply Z.ltb_lt; lia).
    rewrite Ho.
    replace (r + 1 >=? maxr)%Z with false by (symmetry; rewrite Z.geb_leb; apply Z.leb_gt; lia).
    assert (Hrec :
      process_loop json_loads str_lower (k + fuel) net maxr (S i) (r + 1)%Z
        (emit (time_sleep 1) (emit (requests_post (build_request d)) d))
      = process_loop json_loads str_lower fuel net maxr (i + S k) (r + Z.of_nat (S k))%Z
          (emit_all (failed_attempts (build_request d) (S k)) d)).
    { rewrite !emit_emit_all, emit_all_app.
      rewrite IH.
      - rewrite build_request_emit_all, emit_all_app, failed_attempts_S.
        f_equal; [lia | lia].
      - intros j Hj. rewrite build_request_emit_all.
        replace (S i + j) with (i + S j) by lia. apply Hnet. lia.
      - lia. }
    destruct Hcase as [[-> _] | [-> _]]; exact Hrec.
Qed.

(** The call that exhausts the retries: its error is shown, the pause
    is made, and the loop ends. *)
Lemma loop_last_failure (net : network) (maxr : Z) (fuel i : nat) (r : Z) (d : LLMQuizDialog) :
  transient (net i (build_request d)) = true ->
  (r < maxr)%Z -> (maxr <= r + 1)%Z ->
  process_loop json_loads str_lower (S (S fuel)) net maxr i r d
  = Some (emit_all [ requests_post (build_request d);
                     run_on_main (chat_display_append
                                    (transient_html (net i (build_request d))));
                     time_sleep 1%Z;
                     run_on_main (send_button_setEnabled true) ] d).
Proof.
  intros H0 Hlt Hge.
  destruct (try_block_transient net i d H0) as (o & Ho & Hcase).
  simpl process_loop.
  replace (r <? maxr)%Z with true by (symmetry; apply Z.ltb_lt; lia).
  rewrite Ho.
  replace (r + 1 >=? maxr)%Z with true by (symmetry; rewrite Z.geb_leb; apply Z.leb_le; lia).
  replace (r + 1 <? maxr)%Z with false by (symmetry; apply Z.ltb_ge; lia).
  destruct Hcase as [[-> E] | [-> E]]; rewrite E;
    rewrite !emit_emit_all, !emit_all_app; reflexivity.
Qed.

(** The loop always ends: with more fuel than retries left, it returns. *)
Lemma loop_terminates (net : network) (maxr : Z) :
  forall (fuel i : nat) (r : Z) (d : LLMQuizDialog),
    Z.to_nat (maxr - r) < fuel ->
    exists d', process_loop json_loads str_lower fuel net maxr i r d = Some d'.
Proof.
  induction fuel as [|fuel IH]; intros i r d Hfuel; [lia|].
  simpl process_loop.
  destruct (r <? maxr)%Z eqn:Hlt; [|eauto].
  apply Z.ltb_lt in Hlt.
  destruct (try_block json_loads str_lower net i d) as [d1 o].
  destruct o; eauto; apply IH; lia.
Qed.


(** The two ways of handling a response add no call to the trace. *)
Lemma stream_lines_trace (lines : list bytes) :
  forall (full : str) (d : LLMQuizDialog),
    let '(full', d', raised) := stream_lines json_loads lines full d in
    full' = full ++ concat (fst (stream_deltas json_loads lines))
    /\ raised = snd (stream_deltas json_loads lines)
    /\ d' = emit_all (map (fun c => run_on_main (append_stream_text_safely c))
                          (fst (stream_deltas json_loads lines))) d.
Proof.
  induction lines as [|line lines IH]; intros full d; simpl.
  - rewrite app_nil_r, emit_all_nil. auto.
  - destruct (stream_line json_loads line) as [[content|]|e]; simpl.
    + specialize (IH (full ++ content)
                     (emit (run_on_main (append_stream_text_safely content)) d)).
      destruct (stream_lines json_loads lines (full ++ content) _) as [[full' d'] raised].
      destruct (stream_deltas json_loads lines) as [deltas r]. simpl in *.
      destruct IH as (-> & -> & ->).
      rewrite emit_emit_all, emit_all_app, <- app_assoc. auto.
    + apply IH.
    + rewrite app_nil_r, emit_all_nil. auto.
Qed.

Lemma attempts_streamed (deltas : list str) :
  attempts (map (fun c => run_on_main (append_stream_text_safely c)) deltas) = 0.
Proof. induction deltas; [reflexivity | exact IHdeltas]. Qed.

Lemma handle_stream_response_trace (resp : response) (d : LLMQuizDialog) :
  exists es, trace (handle_stream_response json_loads resp d) = trace d ++ es
             /\ attempts es = 0.
Proof.
  unfold handle_stream_response.
  pose proof (stream_lines_trace (iter_lines resp) []
                (emit (run_on_main (chat_display_append (lit "<b>Quiz:</b> ")))
                      (set_is_streaming true d))) as H.
  destruct (stream_lines json_loads (iter_lines resp) [] _) as [[full d1] raised].
  destruct H as (_ & _ & ->).
  set (ds := map _ _). pose proof (attempts_streamed (fst (stream_deltas json_loads (iter_lines resp)))) as Hds.
  fold ds in Hds.
  destruct raised as [e|]; [|destruct (iter_end resp) as [|e]];
    destruct (truthy (PStr full)); simpl; rewrite <- !app_assoc;
    eexists; (split; [reflexivity|]); rewrite ?attempts_app, ?Hds; reflexivity.
Qed.

Lemma add_assistant_response_trace (text : str) (d : LLMQuizDialog) :
  exists es, trace (add_assistant_response str_lower text d) = trace d ++ es
             /\ attempts es = 0.
Proof.
  unfold add_assistant_response.
  match goal with |- context [if truthy ?v then _ else _] => destruct (truthy v) end.
  - simpl. eexists; split; reflexivity.
  - exists []. now rewrite app_nil_r.
Qed.

(** One iteration that receives an answer ends the loop. *)
Lemma loop_answer (net : network) (maxr : Z) (fuel i : nat) (r : Z)
    (d : LLMQuizDialog) (resp : response) :
  (r < maxr)%Z ->
  net i (build_request d) = Returns resp ->
  process_loop json_loads str_lower (S fuel) net maxr i r d
  = Some (match try_block json_loads str_lower net i d with
          | (d1, CaughtException e) =>
              emit (run_on_main (send_button_setEnabled true))
                (emit (run_on_main (chat_display_append_error e)) d1)
          | (d1, _) => d1
          end).
Proof.
  intros Hlt Hnet. simpl process_loop.
  replace (r <? maxr)%Z with true by (symmetry; apply Z.ltb_lt; lia).
  assert (Ho : snd (try_block json_loads str_lower net i d) <> CaughtConnectionError
               /\ snd (try_block json_loads str_lower net i d) <> CaughtTimeout).
  { unfold try_block. rewrite Hnet.
    repeat match goal with
           | |- context [if ?b then _ else _] => destruct b
           | |- context [match ?x with Ok _ => _ | Raise _ => _ end] => destruct x
           | |- context [match ?x with PStr _ => _ | _ => _ end] => destruct x
           end; simpl; split; discriminate. }
  destruct (try_block json_loads str_lower net i d) as [d1 o]. simpl in Ho.
  destruct o; try reflexivity; destruct Ho; congruence.
Qed.


(** C4.  With [max_retries = n >= 1]: when each of the [n] calls fails
    with a connection error or a timeout, exactly [n] calls are made,
    a one-second pause follows each of them, the error of the last call
    is the one shown, and the history is untouched; when the call
    number [k + 1 <= n] is answered with status 200 after [k] such
    failures, exactly [k + 1] calls are made and the dialog is the one
    obtained by handling that answer. *)
Theorem retry_controller (net : network) (d : LLMQuizDialog) (n fuel : nat) :
  config_get (max_retries (config d)) 3%Z = Z.of_nat n ->
  1 <= n -> n < fuel ->
  let req := build_request d in
  ((forall i, i < n -> transient (net i req) = true) ->
   exists d',
     process_response json_loads str_lower fuel net d = Some d'
     /\ trace d' = trace d ++ failed_attempts req (n - 1)
                    ++ [ requests_post req;
                         run_on_main (chat_display_append (transient_html (net (n - 1) req)));
                         time_sleep 1%Z;
                         run_on_main (send_button_setEnabled true) ]
     /\ attempts (trace d') = attempts (trace d) + n
     /\ sleeps (trace d') = sleeps (trace d) ++ repeat 1%Z n
     /\ conversation_history d' = conversation_history d)
  /\
  (forall (k : nat) (resp : response),
     k < n ->
     (forall i, i < k -> transient (net i req) = true) ->
     net k req = Returns resp ->
     status_code resp = 200%Z ->
     exists d',
       process_response json_loads str_lower fuel net d = Some d'
       /\ attempts (trace d') = attempts (trace d) + S k
       /\ let dk := emit (requests_post req) (emit_all (failed_attempts req k) d) in
          (config_get (stream_responses (config d)) true = true ->
           d' = emit (run_on_main (send_button_setEnabled true))
                  (handle_stream_response json_loads resp dk))
          /\ (config_get (stream_responses (config d)) true = false ->
              forall text,
                (result <- json resp ;; extract_response_text result) = Ok (PStr text) ->
                d' = emit (run_on_main (send_button_setEnabled true))
                       (add_assistant_response str_lower text dk))).
Proof.
  intros Hmax Hn Hfuel req. unfold process_response. rewrite Hmax. split.
  - intros Hall.
    replace fuel with ((n - 1) + S (S (fuel - n - 1))) by lia.
    rewrite loop_failures.
    + rewrite loop_last_failure.
      * eexists. split; [reflexivity|]. rewrite build_request_emit_all.
        fold req. replace (0 + (n - 1)) with (n - 1) by lia.
        simpl trace. rewrite <- app_assoc.
        repeat split.
        -- rewrite !attempts_app, attempts_failed. unfold attempts; simpl. lia.
        -- rewrite !sleeps_app, sleeps_failed. simpl.
           replace n with ((n - 1) + 1) at 2 by lia.
           now rewrite repeat_app.
      * rewrite build_request_emit_all. apply Hall. lia.
      * lia.
      * lia.
    + intros j Hj. apply Hall. lia.
    + lia.
  - intros k resp Hk Hfail Hnet Hstatus.
    replace fuel with (k + S (fuel - k - 1)) by lia.
    rewrite loop_failures; [| intros j Hj; apply Hfail; lia | lia].
    set (dk := emit_all (failed_attempts (build_request d) k) d).
    assert (Hnet' : net (0 + k) (build_request dk) = Returns resp) by exact Hnet.
    rewrite (loop_answer net _ _ _ (resp := resp)); [| lia | exact Hnet'].
    eexists. split; [reflexivity|].
    unfold try_block. rewrite Hnet', Hstatus. simpl.
    change (config dk) with (config d).
    destruct (config_get (stream_responses (config d)) true) eqn:Hstream.
    + split; [| split; [reflexivity | discriminate]].
      destruct (handle_stream_response_trace resp (emit (requests_post (build_request dk)) dk))
        as (es & Hes & Hno).
      simpl trace. rewrite Hes. simpl trace.
      rewrite !attempts_app, Hno, attempts_failed. unfold attempts; simpl. lia.
    + destruct (result <- json resp;; extract_response_text result) as [v|e] eqn:Hres.
      * destruct v;
          try (split; [| split; [discriminate | intros _ text Htext; discriminate]];
               simpl trace; rewrite !attempts_app, attempts_failed; unfold attempts; simpl; lia).
        split; [| split; [discriminate | intros _ text Htext; now inversion Htext]].
        destruct (add_assistant_response_trace s (emit (requests_post (build_request dk)) dk))
          as (es & Hes & Hno).
        simpl trace. rewrite Hes. simpl trace.
        rewrite !attempts_app, Hno, attempts_failed. unfold attempts; simpl. lia.
      * split; [| split; [discriminate | intros _ text Htext; discriminate]].
        simpl trace. rewrite !attempts_app, attempts_failed. unfold attempts; simpl. lia.
Qed.

(** C5.  A response with status 401 ends the send at once, whatever
    [max_retries] is: the error handled is the invalid-key error (its
    callback is posted), the send button is enabled again, and no call
    and no pause follows. *)
Theorem unauthorized_not_retried (net : network) (d : LLMQuizDialog)
    (k fuel : nat) (resp : response) :
  (Z.of_nat k < config_get (max_retries (config d)) 3%Z)%Z ->
  k < fuel ->
  (forall i, i < k -> transient (net i (build_request d)) = true) ->
  net k (build_request d) = Returns resp ->
  status_code resp = 401%Z ->
  exists d',
    process_response json_loads str_lower fuel net d = Some d'
    /\ trace d' = trace d ++ failed_attempts (build_request d) k
                   ++ [ requests_post (build_request d);
                        run_on_main (chat_display_append_error
                                       (APIKeyError (lit "Invalid API key")));
                        run_on_main (send_button_setEnabled true) ]
    /\ attempts (trace d') = attempts (trace d) + S k
    /\ conversation_history d' = conversation_history d.
Proof.
  intros Hk Hfuel Hfail Hnet Hstatus. unfold process_response.
  replace fuel with (k + S (fuel - k - 1)) by lia.
  rewrite loop_failures; [| intros j Hj; apply Hfail; lia | lia].
  set (dk := emit_all (failed_attempts (build_request d) k) d).
  assert (Hnet' : net (0 + k) (build_request dk) = Returns resp) by exact Hnet.
  rewrite (loop_answer net _ _ _ (resp := resp)); [| lia | exact Hnet'].
  eexists. split; [reflexivity|].
  unfold try_block. rewrite Hnet', Hstatus. simpl.
  rewrite <- !app_assoc. repeat split.
  rewrite !attempts_app, attempts_failed. unfold attempts; simpl. lia.
Qed.

End Retry.

(** ** The stream decoder *)

Section Stream.

Variable json_loads : str -> result pyval.

(** On a line without payload the loop body does nothing. *)
Lemma stream_line_no_payload (line : bytes) :
  payload json_loads line = None -> stream_line json_loads line = Ok None.
Proof.
  unfold payload, stream_line. destruct line as [|b line]; [reflexivity|].
  destruct (decode (b :: line)) as [line_str|]; [|reflexivity].
  destruct (startswith (lit "data: ") line_str); [discriminate | reflexivity].
Qed.

(** On a payload refused as not being JSON the loop body does nothing. *)
Lemma stream_line_not_json (line : bytes) :
  payload json_loads line = Some (Raise JSONDecodeError) ->
  stream_line json_loads line = Ok None.
Proof.
  unfold payload, stream_line. destruct line as [|b line]; [discriminate|].
  destruct (decode (b :: line)) as [line_str|]; [|discriminate].
  destruct (startswith (lit "data: ") line_str); [|discriminate].
  intros H.
  assert (H' : json_loads (skipn 6 line_str) = Raise JSONDecodeError) by congruence.
  unfold slice_from. now rewrite H'.
Qed.

Lemma stream_line_noise (line : bytes) :
  noise json_loads line -> stream_line json_loads line = Ok None.
Proof.
  intros [H|H]; [now apply stream_line_no_payload | now apply stream_line_not_json].
Qed.

(** On a payload that has the shape of a chunk the loop body yields
    [choices[0].delta.content] when it is a non-empty string, and
    nothing otherwise. *)
Lemma stream_line_chunk (line : bytes) (v : pyval) :
  payload json_loads line = Some (Ok v) -> is_chunk v = true ->
  stream_line json_loads line = Ok (chunk_content v).
Proof.
  unfold payload, stream_line. destruct line as [|b line]; [discriminate|].
  destruct (decode (b :: line)) as [line_str|]; [|discriminate].
  destruct (startswith (lit "data: ") line_str); [|discriminate].
  intros H Hshape.
  assert (H' : json_loads (skipn 6 line_str) = Ok v) by congruence.
  unfold slice_from. rewrite H'. clear H H'.
  destruct v as [| | | | |l|d]; try discriminate.
  cbn [is_chunk] in Hshape. cbn [chunk_content Py.contains Py.bind].
  destruct (lookup (lit "choices") d) as [choices|] eqn:Hc; [|reflexivity].
  cbn [getitem Py.bind]. rewrite Hc. cbn [Py.bind].
  destruct (truthy choices) eqn:Htruthy.
  - destruct choices as [| | | | |l|]; try discriminate.
    destruct l as [|first l]; [discriminate|].
    destruct first as [| | | | | |first]; try discriminate.
    cbn [getitem0 Py.bind Py.get].
    destruct (lookup (lit "delta") first) as [delta|]; [|reflexivity].
    destruct delta as [| | | | | |delta]; try discriminate.
    cbn [Py.bind Py.get].
    destruct (lookup (lit "content") delta) as [content|]; [|reflexivity].
    cbn [Py.bind].
    destruct content as [|bb|z|f|s|l'|d']; simpl in Hshape |- *;
      try reflexivity;
      try (rewrite orb_false_r in Hshape; apply negb_true_iff in Hshape;
           rewrite Hshape; reflexivity).
    destruct s; reflexivity.
  - destruct choices as [| | | | |l|]; try reflexivity.
    destruct l as [|first l]; [reflexivity | discriminate].
Qed.

Lemma stream_deltas_chunks (lines : list bytes) :
  chunks_only json_loads lines ->
  stream_deltas json_loads lines = (spec_deltas json_loads lines, None).
Proof.
  induction 1 as [|line lines Hline _ IH]; [reflexivity|].
  simpl. unfold spec_deltas in *. simpl.
  destruct (payload json_loads line) as [r|] eqn:Hp.
  - destruct (Hline r eq_refl) as [-> | (v & -> & Hv)].
    + rewrite (stream_line_not_json _ Hp). exact IH.
    + rewrite (stream_line_chunk _ Hp Hv).
      destruct (chunk_content v); rewrite IH; reflexivity.
  - rewrite (stream_line_no_payload _ Hp). exact IH.
Qed.

(** What [handle_stream_response] does to the history: the text
    accumulated, when it is not empty, is cleaned and appended as an
    assistant message, whether or not the stream failed. *)
Lemma handle_stream_response_history (resp : response) (d : LLMQuizDialog) :
  conversation_history (handle_stream_response json_loads resp d)
  = conversation_history d
    ++ match concat (fst (stream_deltas json_loads (iter_lines resp))) with
       | [] => []
       | _ :: _ =>
           [assistant_message
              (clean_response_text
                 (concat (fst (stream_deltas json_loads (iter_lines resp)))))]
       end.
Proof.
  unfold handle_stream_response.
  pose proof (stream_lines_trace json_loads (iter_lines resp) []
                (emit (run_on_main (chat_display_append (lit "<b>Quiz:</b> ")))
                      (set_is_streaming true d))) as H.
  destruct (stream_lines json_loads (iter_lines resp) [] _) as [[full d1] raised].
  destruct H as (-> & _ & ->). simpl app.
  destruct (concat (fst (stream_deltas json_loads (iter_lines resp)))) as [|c full];
    simpl truthy; cbv iota.
  - destruct raised; [|destruct (iter_end resp)]; simpl; now rewrite app_nil_r.
  - destruct raised; [|destruct (iter_end resp)]; reflexivity.
Qed.

(** A failed stream is reported on the display. *)
Lemma handle_stream_response_failure (resp : response) (d : LLMQuizDialog) (e : exn) :
  stream_failure json_loads resp = Some e ->
  In (run_on_main (chat_display_append_streaming_failed e))
     (trace (handle_stream_response json_loads resp d)).
Proof.
  unfold stream_failure, handle_stream_response.
  pose proof (stream_lines_trace json_loads (iter_lines resp) []
                (emit (run_on_main (chat_display_append (lit "<b>Quiz:</b> ")))
                      (set_is_streaming true d))) as H.
  destruct (stream_lines json_loads (iter_lines resp) [] _) as [[full d1] raised].
  destruct H as (_ & -> & ->).
  destruct (snd (stream_deltas json_loads (iter_lines resp))) as [e'|].
  - intros [= ->]. destruct (truthy (PStr full)); simpl;
      apply in_or_app; right; now left.
  - destruct (iter_end resp) as [|e']; [discriminate|]. intros [= ->].
    destruct (truthy (PStr full)); simpl; apply in_or_app; right; now left.
Qed.

End Stream.

(** C6 (amended).  On lines each of whose payloads is either refused
    by [json.loads] as not being JSON or has the shape of a chunk, the
    loop passes over blank lines, lines that are not text, lines
    without the marker and payloads that are not JSON, goes on with the
    next line each time, and yields in order exactly the non-empty
    [choices[0].delta.content] strings; the three lines of the
    specification yield [Hel] then [lo] and the message recorded is
    [Hello]; a line that is not JSON between two chunks is passed
    over. *)
Theorem stream_decoder_on_chunks :
  (forall (json_loads : str -> result pyval) (lines : list bytes)
          (full : str) (d : LLMQuizDialog),
      chunks_only json_loads lines ->
      stream_deltas json_loads lines = (spec_deltas json_loads lines, None)
      /\ stream_lines json_loads lines full d
         = (full ++ concat (spec_deltas json_loads lines),
            emit_all (map (fun c => run_on_main (append_stream_text_safely c))
                          (spec_deltas json_loads lines)) d,
            None))
  /\ stream_deltas JsonSubset.json_loads
       [Example.line_Hel; Example.line_lo; Example.line_DONE]
     = ([lit "Hel"; lit "lo"], None)
  /\ (forall d : LLMQuizDialog,
        conversation_history
          (handle_stream_response JsonSubset.json_loads
             (Example.streamed_response
                [Example.line_Hel; Example.line_lo; Example.line_DONE] Exhausted) d)
        = conversation_history d ++ [assistant_message (lit "Hello")])
  /\ stream_deltas JsonSubset.json_loads
       [Example.line_Hel; Example.line_not_json; Example.line_lo]
     = ([lit "Hel"; lit "lo"], None).
Proof.
  split; [|split; [|split]].
  - intros json_loads lines full d Hchunks.
    pose proof (stream_deltas_chunks Hchunks) as Hd. split; [exact Hd|].
    pose proof (stream_lines_trace json_loads lines full d) as H.
    destruct (stream_lines json_loads lines full d) as [[full' d'] raised].
    rewrite Hd in H. simpl in H. destruct H as (-> & -> & ->). reflexivity.
  - vm_compute. reflexivity.
  - intros d. rewrite handle_stream_response_history.
    f_equal.
  - vm_compute. reflexivity.
Qed.

Lemma stream_decoder_on_chunks_witness :
  chunks_only JsonSubset.json_loads [Example.line_Hel; Example.line_lo; Example.line_DONE]
  /\ stream_deltas JsonSubset.json_loads
       [Example.line_Hel; Example.line_lo; Example.line_DONE]
     = (spec_deltas JsonSubset.json_loads
          [Example.line_Hel; Example.line_lo; Example.line_DONE], None).
Proof.
  assert (H : chunks_only JsonSubset.json_loads
                [Example.line_Hel; Example.line_lo; Example.line_DONE]).
  { repeat (constructor;
            [intros r Hp; vm_compute in Hp; injection Hp as <-;
             first [left; reflexivity | right; eexists; split; reflexivity] |]).
    constructor. }
  split; [exact H|].
  exact (proj1 (proj1 stream_decoder_on_chunks JsonSubset.json_loads
                  [Example.line_Hel; Example.line_lo; Example.line_DONE]
                  [] (Example.new_dialog Example.no_config) H)).
Defined.

(** The decoder does not go on after a payload that parses but is not a
    chunk: the number [5] ends the loop with a [TypeError], and the
    content of the next line is not yielded. *)
Lemma stream_decoder_stops_on_scalar :
  fst (stream_deltas JsonSubset.json_loads [Example.line_5; Example.line_Hel]) = []
  /\ snd (stream_deltas JsonSubset.json_loads [Example.line_5; Example.line_Hel])
     = Some TypeError
  /\ spec_deltas JsonSubset.json_loads [Example.line_5; Example.line_Hel] = [lit "Hel"].
Proof. vm_compute. repeat split. Qed.

(** C1 (amended).  When a streamed response fails, the failure is
    reported on the display and the text accumulated before it is not
    dropped: when it cleans to a text that is not empty, that cleaned
    text is appended to the history as an assistant message; when
    nothing had been accumulated, the history is unchanged. *)
Theorem streaming_failure_keeps_partial_text
    (json_loads : str -> result pyval) (resp : response) (d : LLMQuizDialog) (e : exn) :
  stream_failure json_loads resp = Some e ->
  let full := concat (fst (stream_deltas json_loads (iter_lines resp))) in
  In (run_on_main (chat_display_append_streaming_failed e))
     (trace (handle_stream_response json_loads resp d))
  /\ (clean_response_text full <> [] ->
      conversation_history (handle_stream_response json_loads resp d)
      = conversation_history d ++ [assistant_message (clean_response_text full)])
  /\ (full = [] ->
      conversation_history (handle_stream_response json_loads resp d)
      = conversation_history d).
Proof.
  intros Hfail full. split; [|split].
  - now apply handle_stream_response_failure.
  - intros Hclean. rewrite handle_stream_response_history. fold full.
    destruct full; [|reflexivity]. exfalso. apply Hclean. reflexivity.
  - intros Hfull. rewrite handle_stream_response_history. fold full.
    rewrite Hfull. apply app_nil_r.
Qed.

Lemma streaming_failure_keeps_partial_text_witness :
  let resp := Example.streamed_response [Example.line_Hel]
                (Interrupted (TransportError (lit "Connection broken"))) in
  let d := Example.session Example.no_config in
  conversation_history (handle_stream_response JsonSubset.json_loads resp d)
  = conversation_history d ++ [assistant_message (lit "Hel")].
Proof.
  intros resp d.
  exact (proj1 (proj2 (@streaming_failure_keeps_partial_text JsonSubset.json_loads resp d
                         (TransportError (lit "Connection broken")) eq_refl))
           ltac:(vm_compute; discriminate)).
Defined.

(** A stream interrupted after one delta: the truncated text is
    committed to the history. *)
Lemma streaming_failure_commits_partial_text :
  let resp := Example.streamed_response [Example.line_Hel]
                (Interrupted (TransportError (lit "Connection broken"))) in
  let d := Example.session Example.no_config in
  stream_failure JsonSubset.json_loads resp
  = Some (TransportError (lit "Connection broken"))
  /\ conversation_history (handle_stream_response JsonSubset.json_loads resp d)
     <> conversation_history d.
Proof.
  intros resp d. split; [reflexivity|].
  vm_compute. discriminate.
Qed.

(** C3 (streaming path).  A streamed reply made of one reasoning span
    cleans to the empty string, and [handle_stream_response] appends an
    assistant message with empty content. *)
Theorem streamed_reply_cleaning_to_empty_is_appended :
  let resp := Example.streamed_response [Example.line_think] Exhausted in
  let d := Example.session Example.no_config in
  fst (stream_deltas JsonSubset.json_loads (iter_lines resp)) = [lit "<think>hm</think>"]
  /\ clean_response_text (lit "<think>hm</think>") = []
  /\ conversation_history (handle_stream_response JsonSubset.json_loads resp d)
     = conversation_history d ++ [assistant_message []].
Proof.
  intros resp d. split; [|split].
  - vm_compute. reflexivity.
  - vm_compute. reflexivity.
  - rewrite handle_stream_response_history. vm_compute. reflexivity.
Qed.

(** On the other path nothing is appended and nothing is displayed for
    a reply that cleans to the empty string. *)
Lemma add_assistant_response_empty
    (str_lower : str -> str) (response : str) (d : LLMQuizDialog) :
  str_lower [] = [] ->
  clean_response_text response = [] ->
  add_assistant_response str_lower response d = d.
Proof.
  intros Hlower Hclean. unfold add_assistant_response. rewrite Hclean, Hlower.
  change (split NL []) with [@nil char]. cbn [filter]. rewrite Hlower.
  destruct (startswith (lit "question:") [] || _); reflexivity.
Qed.

Lemma retry_controller_witness :
  (exists d',
      process_response JsonSubset.json_loads AsciiLower.str_lower 4
        Example.two_failures_then_success (Example.session Example.no_config) = Some d'
      /\ attempts (trace d') = attempts (trace (Example.session Example.no_config)) + 3
      /\ conversation_history d'
         = conversation_history (Example.session Example.no_config)
           ++ [assistant_message (lit "Hello")])
  /\ (exists d',
         process_response JsonSubset.json_loads AsciiLower.str_lower 3
           Example.always_timeout (Example.session (Example.with_max_retries 2)) = Some d'
         /\ attempts (trace d')
            = attempts (trace (Example.session (Example.with_max_retries 2))) + 2
         /\ sleeps (trace d') = [1%Z; 1%Z]).
Proof.
  split.
  - destruct (@retry_controller JsonSubset.json_loads AsciiLower.str_lower
                Example.two_failures_then_success (Example.session Example.no_config) 3 4
                eq_refl ltac:(lia) ltac:(lia)) as [_ Hsuccess].
    destruct (Hsuccess 2 (Example.streamed_response
                            [Example.line_Hel; Example.line_lo; Example.line_DONE] Exhausted)
                ltac:(lia)
                ltac:(intros [|[|i]] Hi; [reflexivity | reflexivity | lia])
                eq_refl eq_refl) as (d' & Hrun & Hattempts & Hstream & _).
    exists d'. split; [exact Hrun|]. split; [exact Hattempts|].
    rewrite (Hstream eq_refl). reflexivity.
  - destruct (@retry_controller JsonSubset.json_loads AsciiLower.str_lower
                Example.always_timeout (Example.session (Example.with_max_retries 2)) 2 3
                eq_refl ltac:(lia) ltac:(lia)) as [Hfail _].
    destruct (Hfail ltac:(intros i _; reflexivity))
      as (d' & Hrun & Htrace & Hattempts & Hsleeps & _).
    exists d'. split; [exact Hrun|]. split; [exact Hattempts|]. exact Hsleeps.
Defined.

Lemma unauthorized_not_retried_witness :
  exists d',
    process_response JsonSubset.json_loads AsciiLower.str_lower 1
      (Example.always (Example.status_response 401))
      (Example.session (Example.with_max_retries 5)) = Some d'
    /\ attempts (trace d')
       = attempts (trace (Example.session (Example.with_max_retries 5))) + 1
    /\ sleeps (trace d') = [].
Proof.
  destruct (@unauthorized_not_retried JsonSubset.json_loads AsciiLower.str_lower
              (Example.always (Example.status_response 401))
              (Example.session (Example.with_max_retries 5)) 0 1
              (Example.status_response 401)
              ltac:(reflexivity) ltac:(lia) ltac:(intros i Hi; lia) eq_refl eq_refl)
    as (d' & Hrun & Htrace & Hattempts & _).
  exists d'. split; [exact Hrun|]. split; [exact Hattempts|].
  rewrite Htrace. reflexivity.
Defined.

(** ** The request *)

(** C2 (amended).  When the hosted provider is selected and the key is
    empty or absent, building the request does not fail: the request is
    the one of the local provider (the configured local address, no
    authorization header, the model [local-model]), and the [try] block
    sends it. *)
Theorem hosted_without_key_falls_back_to_local (d : LLMQuizDialog) :
  config_get (use_openai (config d)) false = true ->
  config_get (openai_api_key (config d)) [] = [] ->
  build_request d
  = {| url := config_get (llm_studio_url (config d)) default_local_url;
       headers := [ (lit "Content-Type", lit "application/json") ];
       json_model := lit "local-model";
       json_messages := conversation_history d;
       json_temperature := (1, 2)%Z;
       json_max_tokens := 150%Z;
       json_stream := config_get (stream_responses (config d)) true;
       arg_stream := config_get (stream_responses (config d)) true;
       arg_timeout := config_get (timeout (config d)) 30%Z |}
  /\ forall (json_loads : str -> result pyval) (str_lower : str -> str)
            (net : network) (i : nat),
       exists es,
         trace (fst (try_block json_loads str_lower net i d))
         = trace d ++ requests_post (build_request d) :: es.
Proof.
  intros Huse Hkey. split.
  - unfold build_request. rewrite Huse, Hkey. reflexivity.
  - intros json_loads str_lower net i. unfold try_block.
    destruct (net i (build_request d)) as [resp| | |e]; simpl; eauto.
    destruct (status_code resp =? 401)%Z; simpl; eauto.
    destruct (status_code resp =? 200)%Z; simpl; eauto.
    destruct (config_get (stream_responses (config d)) true).
    + destruct (handle_stream_response_trace json_loads resp
                  (emit (requests_post (build_request d)) d)) as (es & Hes & _).
      simpl. rewrite Hes. simpl. rewrite <- !app_assoc. eexists; reflexivity.
    + destruct (result <- json resp;; extract_response_text result) as [v|e];
        simpl; eauto.
      destruct v; simpl; eauto.
      destruct (add_assistant_response_trace str_lower s
                  (emit (requests_post (build_request d)) d)) as (es & Hes & _).
      simpl. rewrite Hes. simpl. rewrite <- !app_assoc. eexists; reflexivity.
Qed.

Lemma hosted_without_key_falls_back_to_local_witness :
  url (build_request (Example.session Example.hosted_without_key)) = default_local_url.
Proof.
  exact (f_equal url
           (proj1 (@hosted_without_key_falls_back_to_local
                     (Example.session Example.hosted_without_key) eq_refl eq_refl))).
Defined.

(** With the hosted provider selected and no key, a send does not fail
    with a configuration error: the request goes to the local address
    and the reply is processed. *)
Lemma hosted_without_key_sends_a_request :
  let d := Example.session Example.hosted_without_key in
  let net := Example.always
               (Example.streamed_response
                  [Example.line_Hel; Example.line_lo; Example.line_DONE] Exhausted) in
  config_get (use_openai (config d)) false = true
  /\ config_get (openai_api_key (config d)) [] = []
  /\ url (build_request d) = default_local_url
  /\ exists d',
       process_response JsonSubset.json_loads AsciiLower.str_lower 4 net d = Some d'
       /\ trace d'
          = trace d
            ++ [ requests_post (build_request d);
                 run_on_main (chat_display_append (lit "<b>Quiz:</b> "));
                 run_on_main (append_stream_text_safely (lit "Hel"));
                 run_on_main (append_stream_text_safely (lit "lo"));
                 run_on_main (send_button_setEnabled true) ].
Proof.
  intros d net. repeat split.
  eexists. split; vm_compute; reflexivity.
Qed.

(** ** The text of a complete response *)

(** C10 (amended).  On a response object that follows the response
    contract, [extract_response_text] returns
    [choices[0].message.content] when the first choice has a [message]
    object with a [content] member, [choices[0].text] when the first
    choice has no [message] but a [text], and the fixed error string
    when [choices] is absent or empty or the first choice has neither
    member; that string is then handled as an assistant reply: it is
    appended to the history and displayed as a message of the quiz. *)
Theorem extract_response_text_on_contract :
  (forall r first rest m x,
      lookup (lit "choices") r = Some (PList (PDict first :: rest)) ->
      lookup (lit "message") first = Some (PDict m) ->
      lookup (lit "content") m = Some x ->
      extract_response_text (PDict r) = Ok x)
  /\ (forall r first rest x,
         lookup (lit "choices") r = Some (PList (PDict first :: rest)) ->
         lookup (lit "message") first = None ->
         lookup (lit "text") first = Some x ->
         extract_response_text (PDict r) = Ok x)
  /\ (forall r,
         lookup (lit "choices") r = None
         \/ (exists c, lookup (lit "choices") r = Some c /\ truthy c = false)
         \/ (exists first rest,
               lookup (lit "choices") r = Some (PList (PDict first :: rest))
               /\ lookup (lit "message") first = None
               /\ lookup (lit "text") first = None) ->
         extract_response_text (PDict r) = Ok (PStr unexpected_format))
  /\ (forall (json_loads : str -> result pyval) (str_lower : str -> str)
             (net : network) (d : LLMQuizDialog) (fuel : nat)
             (resp : response) (v : pyval),
         str_lower unexpected_format
         = lit "error: unexpected response format from llm service." ->
         config_get (stream_responses (config d)) true = false ->
         (0 < config_get (max_retries (config d)) 3)%Z ->
         net 0 (build_request d) = Returns resp ->
         status_code resp = 200%Z ->
         json resp = Ok v ->
         extract_response_text v = Ok (PStr unexpected_format) ->
         process_response json_loads str_lower (S fuel) net d
         = Some (emit_all
                   [ requests_post (build_request d);
                     run_on_main (chat_display_append
                                    (lit "<b>Quiz:</b> " ++ unexpected_format));
                     run_on_main (send_button_setEnabled true) ]
                   (history_append (assistant_message unexpected_format) d))).
Proof.
  split; [|split; [|split]].
  - intros r first rest m x Hc Hm Hx. unfold extract_response_text. simpl.
    rewrite Hc. simpl. rewrite Hm. simpl. rewrite Hx. reflexivity.
  - intros r first rest x Hc Hm Hx. unfold extract_response_text. simpl.
    rewrite Hc. simpl. rewrite Hm. simpl. rewrite Hx. reflexivity.
  - intros r [Hc | [(c & Hc & Hfalsy) | (first & rest & Hc & Hm & Ht)]];
      unfold extract_response_text; simpl; rewrite Hc; simpl.
    + reflexivity.
    + rewrite Hfalsy. reflexivity.
    + rewrite Hm. simpl. rewrite Ht. reflexivity.
  - intros json_loads str_lower net d fuel resp v Hlower Hstream Hmax Hnet Hstatus Hjson Hv.
    unfold process_response. simpl process_loop.
    replace (0 <? config_get (max_retries (config d)) 3)%Z with true
      by (symmetry; now apply Z.ltb_lt).
    unfold try_block. rewrite Hnet, Hstatus, Hstream, Hjson. simpl Py.bind.
    rewrite Hv. simpl.
    unfold add_assistant_response.
    assert (Hclean : clean_response_text unexpected_format = unexpected_format)
      by (vm_compute; reflexivity).
    rewrite Hclean, Hlower.
    assert (Hsplit : split NL unexpected_format = [unexpected_format])
      by (vm_compute; reflexivity).
    rewrite Hsplit. cbn [filter]. rewrite Hlower.
    assert (Hq : startswith (lit "question:")
                   (lit "error: unexpected response format from llm service.") = false)
      by (vm_compute; reflexivity).
    rewrite Hq. cbn [negb join orb].
    assert (Hstrip : truthy (PStr (strip unexpected_format)) = true)
      by (vm_compute; reflexivity).
    match goal with
    | |- context [if ?c then unexpected_format else unexpected_format] =>
        replace (if c then unexpected_format else unexpected_format)
          with unexpected_format by (destruct c; reflexivity)
    end.
    rewrite Hstrip. f_equal.
    unfold emit, emit_all, history_append, set_history. simpl.
    rewrite <- !app_assoc. reflexivity.
Qed.

Lemma extract_response_text_on_contract_witness :
  extract_response_text
    (PDict [(lit "choices",
             PList [PDict [(lit "message", PDict [(lit "content", PStr (lit "Correct!"))])]])])
  = Ok (PStr (lit "Correct!"))
  /\ extract_response_text
       (PDict [(lit "choices", PList [PDict [(lit "text", PStr (lit "Correct!"))]])])
     = Ok (PStr (lit "Correct!"))
  /\ extract_response_text (PDict [(lit "choices", PList [])])
     = Ok (PStr unexpected_format)
  /\ conversation_history
       (match process_response JsonSubset.json_loads AsciiLower.str_lower 1
                (Example.always (Example.json_response "{'choices':[]}"))
                (Example.session Example.not_streaming) with
        | Some d' => d'
        | None => Example.session Example.not_streaming
        end)
     = conversation_history (Example.session Example.not_streaming)
       ++ [assistant_message unexpected_format].
Proof.
  destruct extract_response_text_on_contract as (Hmessage & Htext & Hfixed & Hflow).
  split; [|split; [|split]].
  - eapply Hmessage; reflexivity.
  - eapply Htext; reflexivity.
  - apply Hfixed. right. left. eexists. split; reflexivity.
  - rewrite (Hflow JsonSubset.json_loads AsciiLower.str_lower
               (Example.always (Example.json_response "{'choices':[]}"))
               (Example.session Example.not_streaming) 0
               (Example.json_response "{'choices':[]}")
               (PDict [(lit "choices", PList [])])
               eq_refl eq_refl eq_refl eq_refl eq_refl eq_refl eq_refl).
    reflexivity.
Defined.

(** A response whose first choice has a [message] without [content]:
    [extract_response_text] raises [KeyError], and the send ends on the
    error path, the history unchanged. *)
Lemma extract_response_text_raises :
  let body := "{'choices':[{'message':{'role':'assistant'}}]}"%string in
  let d := Example.session Example.not_streaming in
  (exists v, JsonSubset.json_loads (jlit body) = Ok v
             /\ extract_response_text v = Raise (KeyError (PStr (lit "content"))))
  /\ exists d',
       process_response JsonSubset.json_loads AsciiLower.str_lower 1
         (Example.always (Example.json_response body)) d = Some d'
       /\ conversation_history d' = conversation_history d
       /\ trace d'
          = trace d
            ++ [ requests_post (build_request d);
                 run_on_main (chat_display_append_error (KeyError (PStr (lit "content"))));
                 run_on_main (send_button_setEnabled true) ].
Proof.
  intros body d. split.
  - eexists. split; vm_compute; reflexivity.
  - eexists. split; [|split]; vm_compute; reflexivity.
Qed.

(** ** The system message *)

Lemma basic_prompt_not_empty (q a : str) : basic_prompt q a <> [].
Proof. discriminate. Qed.

(** C8 (amended).  When formatting the template raises [KeyError] (the
    template has a placeholder other than [question] and [answer]),
    [display_question] raises nothing: it warns, and the history is the
    single system message made of the fixed prompt, which is not empty
    and contains the question and the answer. *)
Theorem template_key_error_falls_back
    (str_format : str -> str -> str -> result str) (d : LLMQuizDialog) (key : pyval) :
  str_format (config_get (system_prompt (config d)) default_prompt) (question d) (answer d)
  = Raise (KeyError key) ->
  snd (display_question str_format d) = None
  /\ conversation_history (fst (display_question str_format d))
     = [ {| role_of := system; content := basic_prompt (question d) (answer d) |} ]
  /\ In (call (showInfo_missing_key (KeyError key)))
        (trace (fst (display_question str_format d)))
  /\ basic_prompt (question d) (answer d) <> []
  /\ (exists pre post, basic_prompt (question d) (answer d) = pre ++ question d ++ post)
  /\ (exists pre post, basic_prompt (question d) (answer d) = pre ++ answer d ++ post).
Proof.
  intros Hformat. unfold display_question. simpl. rewrite Hformat. simpl.
  repeat split.
  - rewrite ?in_app_iff; simpl; tauto.
  - discriminate.
  - exists (lit "The user is answering: '"),
      (lit "'. Correct answer: '" ++ answer d ++ lit "'. Evaluate their response.").
    reflexivity.
  - exists (lit "The user is answering: '" ++ question d ++ lit "'. Correct answer: '"),
      (lit "'. Evaluate their response.").
    unfold basic_prompt. now rewrite <- !app_assoc.
Qed.

Lemma template_key_error_falls_back_witness :
  conversation_history
    (fst (display_question FormatSubset.str_format
            (Example.new_dialog (Example.with_template (lit "{question} {anser}")))))
  = [ {| role_of := system;
         content := lit "The user is answering: 'What is the capital of France?'. Correct answer: 'Paris'. Evaluate their response." |} ].
Proof.
  exact (proj1 (proj2 (@template_key_error_falls_back FormatSubset.str_format
                         (Example.new_dialog (Example.with_template (lit "{question} {anser}")))
                         (PStr (lit "anser")) eq_refl))).
Defined.

(** A template without the [answer] placeholder formats without error:
    there is no fall back, and the system message does not contain the
    answer. *)
Lemma template_missing_a_placeholder_is_used :
  let d := Example.new_dialog (Example.with_template (lit "Quiz the user on: {question}")) in
  display_question FormatSubset.str_format d
  = (emit_all [ call chat_display_clear;
                call (chat_display_append
                        (lit "<b>Quiz:</b> Question: What is the capital of France?")) ]
       (set_history
          [ {| role_of := system;
               content := lit "Quiz the user on: What is the capital of France?" |} ] d),
     None)
  /\ PyStr.contains (answer d) (lit "Quiz the user on: What is the capital of France?") = false.
Proof. intros d. split; vm_compute; reflexivity. Qed.

(** ** The history *)

Section History.

Variable json_loads : str -> result pyval.
Variable str_lower : str -> str.

Lemma appends_refl (d d' : LLMQuizDialog) :
  conversation_history d' = conversation_history d -> appends d d'.
Proof. intros H. exists []. rewrite app_nil_r. auto. Qed.

Lemma appends_trans (d1 d2 d3 : LLMQuizDialog) :
  appends d1 d2 -> appends d2 d3 -> appends d1 d3.
Proof.
  intros (n1 & H1 & F1) (n2 & H2 & F2). exists (n1 ++ n2).
  rewrite H2, H1, app_assoc. split; [reflexivity | now apply Forall_app].
Qed.

Lemma appends_one (m : message) (d d' : LLMQuizDialog) :
  user_or_assistant m ->
  conversation_history d' = conversation_history d ++ [m] -> appends d d'.
Proof. intros Hm H. exists [m]. auto. Qed.

Lemma send_message_appends (user_input : str) (d : LLMQuizDialog) :
  appends d (send_message user_input d).
Proof.
  unfold send_message. destruct (negb _).
  - now apply appends_refl.
  - eapply appends_one; [|reflexivity]. now left.
Qed.

Lemma handle_stream_response_appends (resp : response) (d : LLMQuizDialog) :
  appends d (handle_stream_response json_loads resp d).
Proof.
  unfold appends. rewrite handle_stream_response_history.
  destruct (concat _); eexists; (split; [reflexivity|]).
  - constructor.
  - constructor; [now right | constructor].
Qed.

Lemma add_assistant_response_appends (response : str) (d : LLMQuizDialog) :
  appends d (add_assistant_response str_lower response d).
Proof.
  unfold add_assistant_response.
  match goal with |- context [if truthy ?v then _ else _] => destruct (truthy v) end.
  - eapply appends_one; [|reflexivity]. now right.
  - now apply appends_refl.
Qed.

Lemma try_block_appends (net : network) (i : nat) (d : LLMQuizDialog) :
  appends d (fst (try_block json_loads str_lower net i d)).
Proof.
  unfold try_block.
  destruct (net i (build_request d)) as [resp| | |e]; try (now apply appends_refl).
  destruct (status_code resp =? 401)%Z; [now apply appends_refl|].
  destruct (negb _); [now apply appends_refl|].
  destruct (config_get (stream_responses (config d)) true).
  - eapply appends_trans; [|apply appends_refl; reflexivity].
    eapply appends_trans; [|apply handle_stream_response_appends].
    now apply appends_refl.
  - destruct (result <- json resp;; extract_response_text result) as [v|e];
      [|now apply appends_refl].
    destruct v; try (now apply appends_refl).
    eapply appends_trans; [|apply appends_refl; reflexivity].
    eapply appends_trans; [|apply add_assistant_response_appends].
    now apply appends_refl.
Qed.

Lemma process_loop_appends (net : network) (maxr : Z) :
  forall (fuel i : nat) (r : Z) (d d' : LLMQuizDialog),
    process_loop json_loads str_lower fuel net maxr i r d = Some d' -> appends d d'.
Proof.
  induction fuel as [|fuel IH]; intros i r d d'; [discriminate|].
  simpl. destruct (r <? maxr)%Z.
  - pose proof (try_block_appends net i d) as Htry.
    destruct (try_block json_loads str_lower net i d) as [d1 o]. simpl in Htry.
    destruct o.
    + intros [= <-]. exact Htry.
    + intros H. apply IH in H. eapply appends_trans; [exact Htry|].
      eapply appends_trans; [|exact H]. apply appends_refl.
      destruct (r + 1 >=? maxr)%Z; reflexivity.
    + intros H. apply IH in H. eapply appends_trans; [exact Htry|].
      eapply appends_trans; [|exact H]. apply appends_refl.
      destruct (r + 1 >=? maxr)%Z; reflexivity.
    + intros [= <-]. eapply appends_trans; [exact Htry|]. now apply appends_refl.
  - intros [= <-]. now apply appends_refl.
Qed.

Lemma step_appends (d d' : LLMQuizDialog) :
  step json_loads str_lower d d' -> appends d d'.
Proof.
  intros [user_input d0 | fuel net d0 d1 H | resp d0 | response d0].
  - apply send_message_appends.
  - exact (process_loop_appends _ _ _ _ _ _ H).
  - apply handle_stream_response_appends.
  - apply add_assistant_response_appends.
Qed.

Lemma reachable_appends (d0 d : LLMQuizDialog) :
  reachable json_loads str_lower d0 d -> appends d0 d.
Proof.
  induction 1 as [|d d' _ IH Hstep].
  - now apply appends_refl.
  - eapply appends_trans; [exact IH | now apply step_appends].
Qed.

Lemma system_count_user_or_assistant (h : list message) :
  Forall user_or_assistant h -> system_count h = 0.
Proof.
  unfold system_count. induction 1 as [|m h Hm _ IH]; [reflexivity|].
  simpl. unfold is_system at 1. destruct Hm as [-> | ->]; exact IH.
Qed.

End History.

Lemma display_question_history
    (str_format : str -> str -> str -> result str) (d d0 : LLMQuizDialog) :
  display_question str_format d = (d0, None) ->
  exists text, conversation_history d0 = [ {| role_of := system; content := text |} ].
Proof.
  unfold display_question. simpl.
  destruct (str_format _ _ _) as [prompt|e].
  - intros [= <-]. eexists. reflexivity.
  - destruct e; try discriminate. intros [= <-]. eexists. reflexivity.
Qed.

(** C9.  After [display_question] has returned, in every state the
    session can reach the history begins with the system message and
    holds no other system message; each operation ([send_message],
    [process_response], [handle_stream_response],
    [add_assistant_response]) only appends messages of the user or of
    the assistant. *)
Theorem system_message_invariant
    (json_loads : str -> result pyval) (str_lower : str -> str)
    (str_format : str -> str -> str -> result str) (d d0 d' : LLMQuizDialog) :
  display_question str_format d = (d0, None) ->
  reachable json_loads str_lower d0 d' ->
  (exists text rest,
      conversation_history d0 = [ {| role_of := system; content := text |} ]
      /\ conversation_history d' = {| role_of := system; content := text |} :: rest
      /\ Forall user_or_assistant rest)
  /\ option_map role_of (nth_error (conversation_history d') 0) = Some system
  /\ system_count (conversation_history d') = 1
  /\ (forall a b, step json_loads str_lower a b -> appends a b).
Proof.
  intros Hinit Hreach.
  destruct (display_question_history _ _ Hinit) as (text & H0).
  destruct (reachable_appends Hreach) as (rest & Hrest & Hall).
  rewrite H0 in Hrest. simpl in Hrest.
  split; [|split; [|split]].
  - exists text, rest. auto.
  - rewrite Hrest. reflexivity.
  - rewrite Hrest. unfold system_count. simpl. f_equal.
    now apply system_count_user_or_assistant.
  - intros a b. apply step_appends.
Qed.

Lemma system_message_invariant_witness :
  system_count
    (conversation_history
       (handle_stream_response JsonSubset.json_loads
          (Example.streamed_response
             [Example.line_Hel; Example.line_lo; Example.line_DONE] Exhausted)
          (send_message (lit "Paris") (Example.session Example.no_config)))) = 1.
Proof.
  refine (proj1 (proj2 (proj2
            (@system_message_invariant JsonSubset.json_loads AsciiLower.str_lower
               FormatSubset.str_format
               (Example.new_dialog Example.no_config)
               (Example.session Example.no_config) _ _ _)))).
  - vm_compute. reflexivity.
  - eapply reachable_step; [eapply reachable_step; [apply reachable_start|] |].
    + apply step_send_message.
    + apply step_handle_stream_response.
Defined.

(** ** Cleaning the reply *)

Section SubDelete.

Variable match_at : str -> option nat.

(** Dropping the rest of a match is resuming after it. *)
Lemma sub_delete_skip (s : str) :
  forall k, Re.sub_delete match_at k s = Re.sub_delete match_at 0 (skipn k s).
Proof.
  induction s as [|c s IH]; intros [|k]; try reflexivity.
  simpl. apply IH.
Qed.

(** What is kept was in the string. *)
Lemma sub_delete_In (x : char) (s : str) :
  forall k, In x (Re.sub_delete match_at k s) -> In x s.
Proof.
  induction s as [|c s IH]; intros k; simpl; [tauto|].
  destruct k as [|k]; [|eauto].
  destruct (match_at (c :: s)) as [[|n]|]; simpl; intuition eauto.
Qed.

(** A prefix in which no match begins is kept. *)
Lemma sub_delete_prefix (a x : str) :
  (forall p c s, a = p ++ c :: s -> match_at (c :: s ++ x) = None) ->
  Re.sub_delete match_at 0 (a ++ x) = a ++ Re.sub_delete match_at 0 x.
Proof.
  induction a as [|c a IH]; intros Hno; [reflexivity|].
  simpl. rewrite (Hno [] c a eq_refl). f_equal. apply IH.
  intros p c' s ->. apply (Hno (c :: p) c' s). reflexivity.
Qed.

End SubDelete.

(** *** Occurrences of a word whose first character is not repeated *)

Lemma startswith_app (n rest : str) : startswith n (n ++ rest) = true.
Proof. induction n as [|c n IH]; [reflexivity|]. simpl. now rewrite N.eqb_refl. Qed.

Lemma startswith_before (c0 : char) (m : str) :
  ~ In c0 m ->
  forall s t, startswith m (s ++ c0 :: t) = true -> startswith m s = true.
Proof.
  induction m as [|y m IH]; intros Hnotin s t; [reflexivity|].
  destruct s as [|z s]; simpl.
  - intros H. apply andb_prop in H. destruct H as [H _]. apply N.eqb_eq in H.
    subst. exfalso. apply Hnotin. now left.
  - intros H. apply andb_prop in H. destruct H as [-> H]. simpl.
    apply IH with (t := t); [|exact H]. intros Hin. apply Hnotin. now right.
Qed.

(** A word does not begin before its own occurrence unless it occurs
    in what precedes. *)
Lemma startswith_no_straddle (c0 : char) (n' s rest : str) :
  ~ In c0 n' ->
  startswith (c0 :: n') (s ++ (c0 :: n') ++ rest) = true ->
  s = [] \/ startswith (c0 :: n') s = true.
Proof.
  intros Hnotin H. destruct s as [|x s]; [now left|]. right.
  simpl in *. apply andb_prop in H. destruct H as [-> H]. simpl.
  now apply startswith_before with (c0 := c0) (t := n' ++ rest).
Qed.

Lemma find_none_startswith (n p : str) (c : char) (s : str) :
  find n (p ++ c :: s) = None -> startswith n (c :: s) = false.
Proof.
  induction p as [|x p IH]; simpl app.
  - cbn [find]. destruct (startswith n (c :: s)); [discriminate | reflexivity].
  - cbn [find]. destruct (startswith n (x :: p ++ c :: s)); [discriminate|].
    destruct (find n (p ++ c :: s)); [discriminate|]. intros _. now apply IH.
Qed.

Lemma find_first (c0 : char) (n' a rest : str) :
  ~ In c0 n' ->
  find (c0 :: n') a = None ->
  find (c0 :: n') (a ++ (c0 :: n') ++ rest) = Some (length a).
Proof.
  intros Hnotin. induction a as [|x a IH]; intros Hnone.
  - pose proof (startswith_app (c0 :: n') rest) as E.
    simpl app in *. cbn [find]. rewrite E. reflexivity.
  - assert (Hx : startswith (c0 :: n') (x :: a) = false)
      by (apply (find_none_startswith (c0 :: n') [] x a Hnone)).
    assert (Ha : find (c0 :: n') a = None).
    { cbn [find] in Hnone. rewrite Hx in Hnone.
      destruct (find (c0 :: n') a); [discriminate | reflexivity]. }
    change ((x :: a) ++ (c0 :: n') ++ rest) with (x :: (a ++ (c0 :: n') ++ rest)).
    cbn [find].
    destruct (startswith (c0 :: n') (x :: a ++ (c0 :: n') ++ rest)) eqn:Hs.
    + destruct (@startswith_no_straddle c0 n' (x :: a) rest Hnotin Hs) as [H|H];
        [discriminate | congruence].
    + rewrite (IH Ha). reflexivity.
Qed.

Lemma skipn_length_app (l1 l2 : str) (k : nat) :
  skipn (length l1 + k) (l1 ++ l2) = skipn k l2.
Proof. induction l1 as [|c l1 IH]; [reflexivity | exact IH]. Qed.

Lemma think_open_head : Re.think_open = LT :: lit "think>".
Proof. reflexivity. Qed.

Lemma think_close_head : Re.think_close = LT :: lit "/think>".
Proof. reflexivity. Qed.

Lemma LT_not_in_think_open : ~ In LT (lit "think>").
Proof. vm_compute. intuition discriminate. Qed.

Lemma LT_not_in_think_close : ~ In LT (lit "/think>").
Proof. vm_compute. intuition discriminate. Qed.

(** The match of the reasoning pattern at an opening tag whose body
    does not contain the closing tag: the two tags and the body. *)
Lemma match_think_span (body b : str) :
  find Re.think_close body = None ->
  Re.match_think (Re.think_open ++ body ++ Re.think_close ++ b)
  = Some (length Re.think_open + length body + length Re.think_close).
Proof.
  intros Hbody. unfold Re.match_think.
  rewrite startswith_app.
  replace (length Re.think_open) with (length Re.think_open + 0) at 1 by lia.
  rewrite skipn_length_app, skipn_O.
  rewrite think_close_head in *.
  rewrite (@find_first LT (lit "/think>") body b LT_not_in_think_close Hbody). reflexivity.
Qed.

(** The leftmost reasoning span is deleted with all its content, and
    the scan resumes after its closing tag. *)
Lemma remove_think_span (a body b : str) :
  find Re.think_open a = None ->
  find Re.think_close body = None ->
  remove_think (a ++ Re.think_open ++ body ++ Re.think_close ++ b) = a ++ remove_think b.
Proof.
  intros Ha Hbody. unfold remove_think.
  rewrite sub_delete_prefix.
  - f_equal.
    pose proof (@match_think_span body b Hbody) as Hm.
    remember (Re.think_open ++ body ++ Re.think_close ++ b) as x eqn:Hx.
    destruct x as [|c x]; [discriminate|].
    cbn [Re.sub_delete]. rewrite Hm.
    change (length Re.think_open + length body + length Re.think_close)
      with (S (6 + length body + length Re.think_close)).
    cbv iota. rewrite sub_delete_skip.
    change (skipn (6 + length body + length Re.think_close) x)
      with (skipn (S (6 + length body + length Re.think_close)) (c :: x)).
    rewrite Hx.
    change (S (6 + length body + length Re.think_close))
      with (length Re.think_open + (length body + length Re.think_close)).
    rewrite skipn_length_app.
    rewrite skipn_length_app.
    replace (length Re.think_close) with (length Re.think_close + 0) by lia.
    rewrite skipn_length_app. reflexivity.
  - intros p c s ->. unfold Re.match_think.
    destruct (startswith Re.think_open (c :: s ++ _)) eqn:Hs; [|reflexivity].
    exfalso. rewrite think_open_head in Hs, Ha.
    change (c :: s ++ (LT :: lit "think>") ++ body ++ Re.think_close ++ b)
      with ((c :: s) ++ (LT :: lit "think>") ++ (body ++ Re.think_close ++ b)) in Hs.
    destruct (@startswith_no_straddle LT (lit "think>") (c :: s)
                (body ++ Re.think_close ++ b) LT_not_in_think_open Hs) as [H|H];
      [discriminate|].
    rewrite (@find_none_startswith (LT :: lit "think>") p c s Ha) in H. discriminate.
Qed.

(** *** Tags *)

Lemma run_to_gt_open (s : str) (n : nat) :
  Re.run_to_gt s = (n, false) -> ~ In GT s.
Proof.
  revert n. induction s as [|c s IH]; intros n; simpl; [tauto|].
  destruct (N.eqb c GT) eqn:Hc; [discriminate|].
  destruct (Re.run_to_gt s) as [m closed]. intros [= _ ->].
  intros [H|H].
  - subst. now rewrite N.eqb_refl in Hc.
  - exact (IH m eq_refl H).
Qed.

Lemma run_to_gt_zero (s : str) (closed : bool) :
  Re.run_to_gt s = (0, closed) -> match s with x :: _ => x = GT | [] => True end.
Proof.
  destruct s as [|c s]; simpl; [tauto|].
  destruct (N.eqb c GT) eqn:Hc.
  - intros _. now apply N.eqb_eq.
  - destruct (Re.run_to_gt s). discriminate.
Qed.

Lemma match_tag_GT (s : str) : Re.match_tag (GT :: s) = None.
Proof. reflexivity. Qed.

(** After the second substitution no ['<'] opens a tag. *)
Lemma sub_delete_tag_free (s : str) :
  forall k, tag_free (Re.sub_delete Re.match_tag k s).
Proof.
  induction s as [|c s IH]; intros k; cbn [Re.sub_delete]; [exact I|].
  destruct k as [|k]; [|apply IH].
  destruct (Re.match_tag (c :: s)) as [[|n]|] eqn:Hm; try apply IH;
    (cbn [tag_free]; split; [|apply IH]); intros ->.
  - unfold Re.match_tag in Hm. rewrite N.eqb_refl in Hm.
    destruct (Re.run_to_gt s) as [[|m] [|]]; discriminate.
  - unfold Re.match_tag in Hm. rewrite N.eqb_refl in Hm.
    destruct (Re.run_to_gt s) as [[|m] closed] eqn:Hrun.
    + left. pose proof (run_to_gt_zero s Hrun) as H0.
      destruct s as [|x s]; [exact I|]. subst x.
      cbn [Re.sub_delete]. rewrite match_tag_GT. reflexivity.
    + destruct closed; [discriminate|].
      right. intros Hin. apply sub_delete_In in Hin.
      exact (run_to_gt_open s Hrun Hin).
Qed.

Lemma tag_free_suffix (s1 s2 : str) : tag_free (s1 ++ s2) -> tag_free s2.
Proof. induction s1 as [|c s1 IH]; [auto|]. simpl. intros [_ H]. auto. Qed.

Lemma tag_free_prefix (s1 s2 : str) : tag_free (s1 ++ s2) -> tag_free s1.
Proof.
  induction s1 as [|c s1 IH]; [exact (fun _ => I)|].
  simpl. intros [Hc H]. split; [|auto].
  intros Heq. destruct (Hc Heq) as [Hhead | Hnone].
  - destruct s1 as [|x s1]; [now left | now left].
  - right. intros Hin. apply Hnone. apply in_or_app. now left.
Qed.

(** A string in which no ['<'] opens a tag contains no tag. *)
Lemma tag_free_no_tag (pre w post : str) :
  tag_free (pre ++ LT :: w ++ GT :: post) -> w <> [] -> ~ In GT w -> False.
Proof.
  intros Hfree Hw Hnotin. apply tag_free_suffix in Hfree.
  destruct Hfree as [Hc _]. destruct (Hc eq_refl) as [Hhead | Hnone].
  - destruct w as [|x w]; [congruence|]. simpl in Hhead. subst x.
    apply Hnotin. now left.
  - apply Hnone. apply in_or_app. right. now left.
Qed.

(** *** Stripping *)

Lemma dropwhile_suffix (f : char -> bool) (s : str) :
  exists u, s = u ++ dropwhile f s.
Proof.
  induction s as [|c s [u IH]]; [now exists []|].
  simpl. destruct (f c).
  - exists (c :: u). simpl. now f_equal.
  - now exists [].
Qed.

Lemma dropwhile_head (f : char -> bool) (s : str) (c : char) (r : str) :
  dropwhile f s = c :: r -> f c = false.
Proof.
  induction s as [|x s IH]; simpl; [discriminate|].
  destruct (f x) eqn:Hx; [exact IH|]. now intros [= <- _].
Qed.

Lemma rstrip_prefix (s : str) : exists t, s = rstrip s ++ t.
Proof.
  unfold rstrip. destruct (dropwhile_suffix isspace (rev s)) as [u Hu].
  exists (rev u). rewrite <- rev_app_distr, <- Hu. now rewrite rev_involutive.
Qed.

Lemma strip_between (s : str) : exists u t, s = u ++ strip s ++ t.
Proof.
  unfold strip. destruct (dropwhile_suffix isspace s) as [u Hu].
  destruct (rstrip_prefix (lstrip s)) as [t Ht].
  exists u, t. unfold lstrip in *. now rewrite <- Ht.
Qed.

Lemma strip_first (s : str) (c : char) (r : str) :
  strip s = c :: r -> isspace c = false.
Proof.
  unfold strip. intros H. destruct (rstrip_prefix (lstrip s)) as [t Ht].
  rewrite H in Ht. unfold lstrip in Ht. simpl in Ht.
  exact (dropwhile_head isspace s Ht).
Qed.

Lemma strip_last (s : str) (c : char) (r : str) :
  strip s = r ++ [c] -> isspace c = false.
Proof.
  unfold strip, rstrip. intros H.
  apply (f_equal (@rev char)) in H. rewrite rev_involutive, rev_app_distr in H.
  simpl in H. exact (dropwhile_head isspace _ H).
Qed.

Lemma clean_response_text_tag_free (text : str) : tag_free (clean_response_text text).
Proof.
  unfold clean_response_text.
  destruct (strip_between
              (Re.sub_delete Re.match_tag 0
                 (lstrip_char NL (Re.sub_delete Re.match_think 0 text)))) as (u & t & H).
  pose proof (sub_delete_tag_free
                (lstrip_char NL (Re.sub_delete Re.match_think 0 text)) 0) as Hfree.
  rewrite H in Hfree. apply tag_free_suffix in Hfree. now apply tag_free_prefix in Hfree.
Qed.

Lemma startswith_app_r (n s t : str) :
  startswith n s = true -> startswith n (s ++ t) = true.
Proof.
  revert s. induction n as [|c n IH]; intros s; [reflexivity|].
  destruct s as [|x s]; simpl; [discriminate|].
  intros H. apply andb_prop in H. destruct H as [-> H]. simpl. now apply IH.
Qed.

Lemma find_none_app_r (n a b : str) : find n (a ++ b) = None -> find n b = None.
Proof.
  induction a as [|x a IH]; [auto|].
  simpl app. cbn [find]. destruct (startswith n (x :: a ++ b)); [discriminate|].
  destruct (find n (a ++ b)); [discriminate|]. auto.
Qed.

Lemma find_none_app_l (n a b : str) : find n (a ++ b) = None -> find n a = None.
Proof.
  induction a as [|x a IH].
  - destruct n as [|c n]; [|reflexivity].
    simpl app. destruct b; discriminate.
  - simpl app. cbn [find].
    destruct (startswith n (x :: a)) eqn:Hs.
    + pose proof (startswith_app_r n (x :: a) b Hs) as Hs'. simpl app in Hs'.
      rewrite Hs'. discriminate.
    + destruct (startswith n (x :: a ++ b)); [discriminate|].
      destruct (find n (a ++ b)); [discriminate|].
      intros _. now rewrite IH.
Qed.

(** A text without opening tag is left as it is by the first
    substitution. *)
Lemma remove_think_none (s : str) : find Re.think_open s = None -> remove_think s = s.
Proof.
  intros Hs. unfold remove_think.
  rewrite <- (app_nil_r s) at 1. rewrite sub_delete_prefix; [apply app_nil_r|].
  intros p c s' ->. unfold Re.match_think. rewrite app_nil_r.
  now rewrite (@find_none_startswith Re.think_open p c s' Hs).
Qed.

Lemma match_think_needs_LT (c : char) (s : str) :
  c <> LT -> Re.match_think (c :: s) = None.
Proof.
  intros Hc. unfold Re.match_think.
  change (startswith Re.think_open (c :: s))
    with (N.eqb LT c && startswith (lit "think>") s).
  destruct (N.eqb_spec LT c) as [E|_]; [congruence | reflexivity].
Qed.

Lemma match_tag_needs_LT (c : char) (s : str) :
  c <> LT -> Re.match_tag (c :: s) = None.
Proof.
  intros Hc. unfold Re.match_tag.
  destruct (N.eqb_spec c LT) as [E|_]; [congruence | reflexivity].
Qed.

(** *** A reply made of text, tags and reasoning spans *)

(** A tag that begins as the opening tag of a reasoning span is that
    tag. *)
Lemma tag_named_think (w rest : str) :
  ~ In GT w -> startswith (lit "think>") (w ++ GT :: rest) = true -> w = lit "think".
Proof.
  intros Hgt.
  change (lit "think>") with [116; 104; 105; 110; 107; 62]%N.
  change (lit "think") with [116; 104; 105; 110; 107]%N.
  destruct w as [|c1 [|c2 [|c3 [|c4 [|c5 [|c6 w]]]]]]; cbn [app startswith];
    rewrite ?andb_true_iff, ?N.eqb_eq; try (intuition (subst; discriminate)).
  - intros (E1 & E2 & E3 & E4 & E5 & _). now subst.
  - intros (_ & _ & _ & _ & _ & E6 & _). exfalso. apply Hgt. subst c6.
    do 5 right. now left.
Qed.

(** The first substitution takes the reasoning spans out and nothing
    else. *)
Lemma remove_think_pieces (ps : list piece) :
  Forall well_formed ps ->
  remove_think (concat (map render ps)) = concat (map without_reasoning ps).
Proof.
  induction 1 as [|p ps Hp _ IH]; [reflexivity|].
  cbn [map concat]. destruct p as [s | w | body]; cbn [render without_reasoning well_formed] in *.
  - unfold remove_think in *. rewrite sub_delete_prefix; [now rewrite IH|].
    intros p c s' ->. apply match_think_needs_LT. intros ->. apply Hp.
    apply in_or_app. right. now left.
  - destruct Hp as (_ & Hlt & Hgt & Hname).
    unfold remove_think in *. rewrite sub_delete_prefix; [now rewrite IH|].
    intros [|x p] c s'.
    + intros [= <- <-]. unfold Re.match_think.
      destruct (startswith Re.think_open _) eqn:Hs; [|reflexivity].
      exfalso. apply Hname. rewrite think_open_head in Hs.
      cbn [startswith app] in Hs. rewrite N.eqb_refl in Hs. cbn [andb] in Hs.
      rewrite <- app_assoc in Hs. cbn [app] in Hs.
      exact (@tag_named_think _ _ Hgt Hs).
    + intros [= _ Heq]. apply match_think_needs_LT. intros ->.
      assert (Hin : In LT (w ++ [GT])) by (rewrite Heq; apply in_or_app; right; now left).
      apply in_app_or in Hin. destruct Hin as [Hin | [Hin | []]]; [now apply Hlt | discriminate Hin].
  - rewrite <- !app_assoc.
    rewrite <- IH.
    exact (@remove_think_span [] body (concat (map render ps)) eq_refl Hp).
Qed.

Lemma run_to_gt_tag (w rest : str) :
  ~ In GT w -> Re.run_to_gt (w ++ GT :: rest) = (length w, true).
Proof.
  induction w as [|c w IH]; intros Hgt.
  - cbn. reflexivity.
  - cbn [app Re.run_to_gt length].
    destruct (N.eqb_spec c GT) as [-> | _]; [exfalso; apply Hgt; now left|].
    rewrite IH; [reflexivity|]. intros Hin. apply Hgt. now right.
Qed.

(** The second substitution takes the tags out and nothing else. *)
Lemma remove_tags_pieces (ps : list piece) :
  Forall well_formed ps ->
  remove_tags (concat (map without_reasoning ps)) = concat (map reply_text ps).
Proof.
  induction 1 as [|p ps Hp _ IH]; [reflexivity|].
  cbn [map concat]. destruct p as [s | w | body];
    cbn [render without_reasoning reply_text well_formed] in *.
  - unfold remove_tags in *. rewrite sub_delete_prefix; [now rewrite IH|].
    intros p c s' ->. apply match_tag_needs_LT. intros ->. apply Hp.
    apply in_or_app. right. now left.
  - destruct Hp as (Hw & _ & Hgt & _).
    unfold remove_tags in *. cbn [app Re.sub_delete].
    unfold Re.match_tag. rewrite N.eqb_refl.
    rewrite <- app_assoc. cbn [app].
    rewrite (@run_to_gt_tag w _ Hgt).
    destruct w as [|c w]; [congruence|]. cbn [length].
    rewrite sub_delete_skip.
    replace (S (S (length w))) with (length (c :: w) + 1) by (cbn [length]; lia).
    change (c :: w ++ GT :: concat (map without_reasoning ps))
      with ((c :: w) ++ GT :: concat (map without_reasoning ps)).
    rewrite skipn_length_app. cbn [skipn]. exact IH.
  - exact IH.
Qed.

Lemma dropwhile_split (f : char -> bool) (s : str) :
  exists u, s = u ++ dropwhile f s /\ forallb f u = true.
Proof.
  induction s as [|c s (u & Hu & Hall)]; [now exists []|].
  cbn [dropwhile]. destruct (f c) eqn:Hc.
  - exists (c :: u). cbn. rewrite Hc, Hall. split; [now f_equal | reflexivity].
  - now exists [].
Qed.

(** The line breaks that [lstrip] takes out between the two
    substitutions are white space at the head of the text: [strip]
    would take them out as well. *)
Lemma remove_tags_after_newlines (s : str) :
  strip (remove_tags (lstrip_char NL s)) = strip (remove_tags s).
Proof.
  destruct (dropwhile_split (N.eqb NL) s) as (u & Hu & Hall).
  fold (lstrip_char NL s) in Hu. rewrite Hu at 2. clear Hu.
  generalize (lstrip_char NL s). intros t.
  unfold remove_tags. rewrite sub_delete_prefix.
  - unfold strip, lstrip. f_equal.
    induction u as [|c u IH]; [reflexivity|].
    cbn [forallb] in Hall. apply andb_prop in Hall. destruct Hall as [Hc Hall].
    apply N.eqb_eq in Hc. subst c. cbn [app dropwhile].
    change (isspace NL) with true. cbv iota. now apply IH.
  - intros p c s' ->. apply match_tag_needs_LT. intros ->.
    rewrite forallb_app in Hall. apply andb_prop in Hall. destruct Hall as [_ Hall].
    cbn [forallb] in Hall. apply andb_prop in Hall. destruct Hall as [Hc _].
    apply N.eqb_eq in Hc. discriminate Hc.
Qed.

(** Of a reply made of well-formed pieces the text of the reply itself
    is kept, in order, and trimmed. *)
Lemma clean_response_text_pieces (ps : list piece) :
  Forall well_formed ps ->
  clean_response_text (concat (map render ps)) = strip (concat (map reply_text ps)).
Proof.
  intros Hps.
  change (clean_response_text (concat (map render ps)))
    with (strip (remove_tags (lstrip_char NL (remove_think (concat (map render ps)))))).
  now rewrite remove_tags_after_newlines, remove_think_pieces, remove_tags_pieces.
Qed.

(** C7.  [clean_response_text] maps the example of the specification to
    [Hello world]; it deletes a reasoning span with all its content,
    line breaks included, as if the span were not in the text; its
    result contains no tag (a ['<'], one or more characters other than
    ['>'], a ['>']), hence no reasoning marker either; its result
    neither begins nor ends with a white space character, so that
    leading blank lines are gone; and of a reply made of text, tags
    and reasoning spans it returns the text of the reply itself, in
    order and whole, with the surrounding white space taken off. *)
Theorem clean_response_text_spec :
  clean_response_text (lit "<think>reasoning</think>Hello <b>world</b>") = lit "Hello world"
  /\ clean_response_text
       (lit "<think>first line" ++ [NL] ++ lit "second line</think>" ++ [NL; NL]
          ++ lit "  Hello <b>world</b>  ")
     = lit "Hello world"
  /\ (forall a body b,
         find Re.think_open a = None ->
         find Re.think_close body = None ->
         remove_think (a ++ Re.think_open ++ body ++ Re.think_close ++ b)
         = a ++ remove_think b)
  /\ (forall a body b,
         find Re.think_open (a ++ b) = None ->
         find Re.think_close body = None ->
         clean_response_text (a ++ Re.think_open ++ body ++ Re.think_close ++ b)
         = clean_response_text (a ++ b))
  /\ (forall text pre w post,
         w <> [] -> ~ In GT w ->
         clean_response_text text <> pre ++ LT :: w ++ GT :: post)
  /\ (forall text c r, clean_response_text text = c :: r -> isspace c = false)
  /\ (forall text c r, clean_response_text text = r ++ [c] -> isspace c = false)
  /\ (forall ps,
         Forall well_formed ps ->
         clean_response_text (concat (map render ps)) = strip (concat (map reply_text ps))).
Proof.
  split; [vm_compute; reflexivity|].
  split; [vm_compute; reflexivity|].
  split; [exact remove_think_span|].
  split; [|split; [|split; [|split]]].
  - intros a body b Hab Hbody.
    pose proof (@remove_think_span a body b (find_none_app_l _ _ _ Hab) Hbody) as Hspan.
    pose proof (@remove_think_none b (find_none_app_r _ _ _ Hab)) as Hb.
    pose proof (@remove_think_none (a ++ b) Hab) as Hnone.
    unfold clean_response_text. unfold remove_think in *.
    now rewrite Hspan, Hb, Hnone.
  - intros text pre w post Hw Hnotin Heq.
    pose proof (clean_response_text_tag_free text) as Hfree. rewrite Heq in Hfree.
    exact (@tag_free_no_tag pre w post Hfree Hw Hnotin).
  - intros text c r. unfold clean_response_text. apply strip_first.
  - intros text c r. unfold clean_response_text. apply strip_last.
  - exact clean_response_text_pieces.
Qed.

Lemma clean_response_text_spec_witness :
  clean_response_text
    (lit "Well. " ++ Re.think_open ++ (lit "step 1" ++ [NL] ++ lit "step 2")
       ++ Re.think_close ++ lit "Correct!")
  = clean_response_text (lit "Well. " ++ lit "Correct!")
  /\ clean_response_text (lit "a <i>b</i>") <> lit "a " ++ LT :: lit "i" ++ GT :: lit "b</i>"
  /\ clean_response_text
       (concat (map render
                  [ Reasoning (lit "step 1" ++ [NL] ++ lit "step 2"); Text [NL; NL];
                    Text (lit " Paris is "); Tag (lit "b"); Text (lit "right");
                    Tag (lit "/b"); Text (lit ". ") ]))
     = lit "Paris is right.".
Proof.
  destruct clean_response_text_spec as (_ & _ & _ & Hspan & Htag & _ & _ & Hpieces).
  split; [|split].
  - apply Hspan; reflexivity.
  - apply Htag; [discriminate|].
    intros [H|[]]. discriminate H.
  - rewrite Hpieces; [reflexivity|].
    repeat (apply Forall_cons;
            [vm_compute; first [reflexivity | intuition discriminate]|]).
    apply Forall_nil.
Defined.

(** ** Termination of a send *)

(** X25.  The retry loop is bounded: more iterations than [max_retries]
    are never needed, so that [process_response] returns whenever the
    responses it handles are received to their end (the responses of
    the model; a streamed body that never ends is outside it). *)
Lemma process_response_terminates
    (json_loads : str -> result pyval) (str_lower : str -> str)
    (net : network) (d : LLMQuizDialog) (fuel : nat) :
  Z.to_nat (config_get (max_retries (config d)) 3%Z) < fuel ->
  exists d', process_response json_loads str_lower fuel net d = Some d'.
Proof.
  intros Hfuel. unfold process_response. apply loop_terminates.
  now rewrite Z.sub_0_r.
Qed.

(** * Further properties of the code *)

(** ** One send *)

Section Send.

Variable json_loads : str -> result pyval.
Variable str_lower : str -> str.

Lemma handle_stream_response_ui (resp : response) (d : LLMQuizDialog) :
  exists es, trace (handle_stream_response json_loads resp d) = trace d ++ es
             /\ forallb is_ui es = true.
Proof.
  unfold handle_stream_response.
  pose proof (stream_lines_trace json_loads (iter_lines resp) []
                (emit (run_on_main (chat_display_append (lit "<b>Quiz:</b> ")))
                      (set_is_streaming true d))) as H.
  destruct (stream_lines json_loads (iter_lines resp) [] _) as [[full d1] raised].
  destruct H as (_ & _ & ->).
  set (ds := map _ _).
  assert (Hds : forallb is_ui ds = true).
  { subst ds. induction (fst (stream_deltas json_loads (iter_lines resp)));
      [reflexivity | exact IHl]. }
  destruct raised as [e|]; [|destruct (iter_end resp) as [|e]];
    destruct (truthy (PStr full)); simpl; rewrite <- ?app_assoc;
    eexists; (split; [reflexivity|]);
    simpl; rewrite ?forallb_app, ?Hds; reflexivity.
Qed.

Lemma add_assistant_response_ui (text : str) (d : LLMQuizDialog) :
  exists es, trace (add_assistant_response str_lower text d) = trace d ++ es
             /\ forallb is_ui es = true.
Proof.
  unfold add_assistant_response.
  match goal with |- context [if truthy ?v then _ else _] => destruct (truthy v) end.
  - simpl. eexists; split; reflexivity.
  - exists []. now rewrite app_nil_r.
Qed.

Lemma handle_stream_response_fields (resp : response) (d : LLMQuizDialog) :
  question (handle_stream_response json_loads resp d) = question d
  /\ answer (handle_stream_response json_loads resp d) = answer d
  /\ config (handle_stream_response json_loads resp d) = config d.
Proof.
  unfold handle_stream_response.
  pose proof (stream_lines_trace json_loads (iter_lines resp) []
                (emit (run_on_main (chat_display_append (lit "<b>Quiz:</b> ")))
                      (set_is_streaming true d))) as H.
  destruct (stream_lines json_loads (iter_lines resp) [] _) as [[full d1] raised].
  destruct H as (_ & _ & ->).
  destruct raised as [e|]; [|destruct (iter_end resp) as [|e]];
    destruct (truthy (PStr full)); simpl; auto.
Qed.

Lemma add_assistant_response_fields (text : str) (d : LLMQuizDialog) :
  question (add_assistant_response str_lower text d) = question d
  /\ answer (add_assistant_response str_lower text d) = answer d
  /\ config (add_assistant_response str_lower text d) = config d.
Proof.
  unfold add_assistant_response.
  match goal with |- context [if truthy ?v then _ else _] => destruct (truthy v) end;
    simpl; auto.
Qed.

Lemma add_assistant_response_reply (text : str) (d : LLMQuizDialog) :
  at_most_one_reply (conversation_history d)
    (conversation_history (add_assistant_response str_lower text d)).
Proof.
  unfold add_assistant_response.
  match goal with |- context [if truthy ?v then _ else _] => destruct (truthy v) end.
  - right. eexists. reflexivity.
  - now left.
Qed.

Lemma handle_stream_response_reply (resp : response) (d : LLMQuizDialog) :
  at_most_one_reply (conversation_history d)
    (conversation_history (handle_stream_response json_loads resp d)).
Proof.
  rewrite handle_stream_response_history.
  destruct (concat _).
  - left. apply app_nil_r.
  - right. eexists. reflexivity.
Qed.

(** The [try] block: the request of the current history is posted
    first, everything else acts on the widgets, and the fields of the
    dialog other than the history are kept. *)
Lemma try_block_run (net : network) (i : nat) (d : LLMQuizDialog) :
  exists es,
    trace (fst (try_block json_loads str_lower net i d))
    = trace d ++ requests_post (build_request d) :: es
    /\ forallb is_ui es = true
    /\ question (fst (try_block json_loads str_lower net i d)) = question d
    /\ answer (fst (try_block json_loads str_lower net i d)) = answer d
    /\ config (fst (try_block json_loads str_lower net i d)) = config d
    /\ at_most_one_reply (conversation_history d)
         (conversation_history (fst (try_block json_loads str_lower net i d)))
    /\ match snd (try_block json_loads str_lower net i d) with
       | Returned => exists es', es = es' ++ [enable_send]
       | _ => fst (try_block json_loads str_lower net i d)
              = emit (requests_post (build_request d)) d
       end.
Proof.
  unfold try_block.
  assert (Hstop : exists es,
             trace (emit (requests_post (build_request d)) d)
             = trace d ++ requests_post (build_request d) :: es
             /\ forallb is_ui es = true
             /\ question (emit (requests_post (build_request d)) d) = question d
             /\ answer (emit (requests_post (build_request d)) d) = answer d
             /\ config (emit (requests_post (build_request d)) d) = config d
             /\ at_most_one_reply (conversation_history d)
                  (conversation_history (emit (requests_post (build_request d)) d))).
  { exists []. repeat split. now left. }
  destruct Hstop as (es0 & H1 & H2 & H3 & H4 & H5 & H6).
  destruct (net i (build_request d)) as [resp| | |e]; simpl;
    try (exists es0; repeat split; assumption).
  destruct (status_code resp =? 401)%Z; simpl;
    [exists es0; repeat split; assumption|].
  destruct (status_code resp =? 200)%Z; simpl;
    [|exists es0; repeat split; assumption].
  destruct (config_get (stream_responses (config d)) true).
  - destruct (handle_stream_response_ui resp (emit (requests_post (build_request d)) d))
      as (es & Hes & Hui).
    destruct (handle_stream_response_fields resp (emit (requests_post (build_request d)) d))
      as (Hq & Ha & Hc).
    exists (es ++ [enable_send]). simpl. rewrite Hes. simpl.
    rewrite <- !app_assoc. rewrite forallb_app, Hui.
    repeat split; try assumption.
    + apply (handle_stream_response_reply resp (emit (requests_post (build_request d)) d)).
    + now exists es.
  - destruct (result <- json resp;; extract_response_text result) as [v|e]; simpl;
      [|exists es0; repeat split; assumption].
    destruct v; simpl; try (exists es0; repeat split; assumption).
    destruct (add_assistant_response_ui s (emit (requests_post (build_request d)) d))
      as (es & Hes & Hui).
    destruct (add_assistant_response_fields s (emit (requests_post (build_request d)) d))
      as (Hq & Ha & Hc).
    exists (es ++ [enable_send]). rewrite Hes. simpl.
    rewrite <- !app_assoc. rewrite forallb_app, Hui.
    repeat split; try assumption.
    + apply (add_assistant_response_reply s (emit (requests_post (build_request d)) d)).
    + now exists es.
Qed.

Lemma attempts_post (req : request) (es : list effect) :
  attempts (requests_post req :: es) = S (attempts es).
Proof. reflexivity. Qed.

Lemma sleeps_post (req : request) (es : list effect) :
  sleeps (requests_post req :: es) = sleeps es.
Proof. reflexivity. Qed.

Lemma ui_attempts (es : list effect) : forallb is_ui es = true -> attempts es = 0.
Proof.
  unfold attempts. induction es as [|e es IH]; [reflexivity|].
  simpl. destruct e; simpl; try discriminate; exact IH.
Qed.

Lemma ui_sleeps (es : list effect) : forallb is_ui es = true -> sleeps es = [].
Proof.
  unfold sleeps. induction es as [|e es IH]; [reflexivity|].
  simpl. destruct e; simpl; try discriminate; exact IH.
Qed.

Lemma ui_no_post (P : effect -> Prop) (es : list effect) :
  forallb is_ui es = true -> Forall (fun e => is_post e = true -> P e) es.
Proof.
  induction es as [|e es IH]; [constructor|].
  simpl. intros H. apply andb_prop in H. destruct H as [He Hes].
  constructor; [|auto]. destruct e; simpl in *; discriminate.
Qed.

(** The loop, from any of its states: what it adds to the trace ends
    with the send button enabled again; before that come at most as
    many requests as retries are left, all of them the request of the
    history at the start, and pauses of one second only; the history
    gets at most one reply and the other fields are kept. *)
Lemma process_loop_run (net : network) (maxr : Z) :
  forall (fuel i : nat) (r : Z) (d d' : LLMQuizDialog),
    process_loop json_loads str_lower fuel net maxr i r d = Some d' ->
    exists es,
      trace d' = trace d ++ es ++ [enable_send]
      /\ attempts es <= Z.to_nat (maxr - r)
      /\ Forall (fun e => is_post e = true -> e = requests_post (build_request d)) es
      /\ Forall (fun s => s = 1%Z) (sleeps es)
      /\ at_most_one_reply (conversation_history d) (conversation_history d')
      /\ question d' = question d /\ answer d' = answer d /\ config d' = config d.
Proof.
  induction fuel as [|fuel IH]; intros i r d d'; [discriminate|].
  simpl. destruct (r <? maxr)%Z eqn:Hlt.
  - apply Z.ltb_lt in Hlt.
    destruct (try_block_run net i d) as (es1 & Ht & Hui & Hq & Ha & Hc & Hh & Ho).
    destruct (try_block json_loads str_lower net i d) as [d1 o]. simpl in *.
    assert (Hpost1 : Forall (fun e => is_post e = true -> e = requests_post (build_request d))
                       (requests_post (build_request d) :: es1)).
    { constructor; [reflexivity | now apply ui_no_post]. }
    destruct o.
    + intros [= <-]. destruct Ho as (es' & ->).
      exists (requests_post (build_request d) :: es').
      rewrite forallb_app in Hui. apply andb_prop in Hui. destruct Hui as [Hui _].
      split; [rewrite Ht; simpl; rewrite <- ?app_assoc; reflexivity|].
      repeat split; try assumption.
      * rewrite attempts_post, (ui_attempts _ Hui). lia.
      * constructor; [reflexivity | now apply ui_no_post].
      * rewrite sleeps_post, (ui_sleeps _ Hui). constructor.
    + subst d1. intros Hrun.
      set (err := if (r + 1 >=? maxr)%Z
                  then [run_on_main (chat_display_append connection_failed_html)]
                  else []).
      assert (Hd3 : emit (time_sleep 1)
                      (if (r + 1 >=? maxr)%Z
                       then emit (run_on_main (chat_display_append connection_failed_html))
                              (emit (requests_post (build_request d)) d)
                       else emit (requests_post (build_request d)) d)
                    = emit_all ((requests_post (build_request d) :: err) ++ [time_sleep 1%Z]) d).
      { subst err. destruct (r + 1 >=? maxr)%Z;
          rewrite !emit_emit_all, !emit_all_app; reflexivity. }
      rewrite Hd3 in Hrun. apply IH in Hrun.
      destruct Hrun as (es & Htr & Hat & Hpo & Hsl & Hhi & Hq' & Ha' & Hc').
      rewrite build_request_emit_all in Hpo. simpl in Hhi, Hq', Ha', Hc'.
      exists ((requests_post (build_request d) :: err) ++ [time_sleep 1%Z] ++ es).
      assert (Herr : forallb is_ui err = true) by (subst err; destruct (r + 1 >=? maxr)%Z; reflexivity).
      repeat split; try assumption.
      * rewrite Htr. cbn [trace emit_all]. repeat rewrite <- app_assoc.
        simpl. repeat rewrite <- app_assoc. reflexivity.
      * simpl app. rewrite attempts_post, !attempts_app, (ui_attempts _ Herr).
        change (attempts (time_sleep 1%Z :: es)) with (attempts es). lia.
      * constructor; [reflexivity|]. apply Forall_app. split; [now apply ui_no_post|].
        constructor; [discriminate | exact Hpo].
      * simpl app. rewrite sleeps_post, !sleeps_app, (ui_sleeps _ Herr).
        change (sleeps (time_sleep 1%Z :: es)) with (1%Z :: sleeps es).
        constructor; [reflexivity | exact Hsl].
    + subst d1. intros Hrun.
      set (err := if (r + 1 >=? maxr)%Z
                  then [run_on_main (chat_display_append timed_out_html)]
                  else []).
      assert (Hd3 : emit (time_sleep 1)
                      (if (r + 1 >=? maxr)%Z
                       then emit (run_on_main (chat_display_append timed_out_html))
                              (emit (requests_post (build_request d)) d)
                       else emit (requests_post (build_request d)) d)
                    = emit_all ((requests_post (build_request d) :: err) ++ [time_sleep 1%Z]) d).
      { subst err. destruct (r + 1 >=? maxr)%Z;
          rewrite !emit_emit_all, !emit_all_app; reflexivity. }
      rewrite Hd3 in Hrun. apply IH in Hrun.
      destruct Hrun as (es & Htr & Hat & Hpo & Hsl & Hhi & Hq' & Ha' & Hc').
      rewrite build_request_emit_all in Hpo. simpl in Hhi, Hq', Ha', Hc'.
      exists ((requests_post (build_request d) :: err) ++ [time_sleep 1%Z] ++ es).
      assert (Herr : forallb is_ui err = true) by (subst err; destruct (r + 1 >=? maxr)%Z; reflexivity).
      repeat split; try assumption.
      * rewrite Htr. cbn [trace emit_all]. repeat rewrite <- app_assoc.
        simpl. repeat rewrite <- app_assoc. reflexivity.
      * simpl app. rewrite attempts_post, !attempts_app, (ui_attempts _ Herr).
        change (attempts (time_sleep 1%Z :: es)) with (attempts es). lia.
      * constructor; [reflexivity|]. apply Forall_app. split; [now apply ui_no_post|].
        constructor; [discriminate | exact Hpo].
      * simpl app. rewrite sleeps_post, !sleeps_app, (ui_sleeps _ Herr).
        change (sleeps (time_sleep 1%Z :: es)) with (1%Z :: sleeps es).
        constructor; [reflexivity | exact Hsl].
    + subst d1. intros [= <-].
      exists [requests_post (build_request d); run_on_main (chat_display_append_error e)].
      split; [simpl; rewrite <- ?app_assoc; reflexivity|]. repeat split.
      * unfold attempts. simpl. lia.
      * repeat constructor; discriminate.
      * constructor.
      * now left.
  - intros [= <-]. exists []. split; [reflexivity|]. repeat split.
    + unfold attempts. simpl. lia.
    + constructor.
    + constructor.
    + now left.
Qed.

(** A send whose [k + 1]-th call ends in the generic handler: the
    callback for the error is posted and the loop is left. *)
Lemma process_response_caught (net : network) (d : LLMQuizDialog) (k fuel : nat) (e : exn) :
  (Z.of_nat k < config_get (max_retries (config d)) 3%Z)%Z ->
  k < fuel ->
  (forall i, i < k -> transient (net i (build_request d)) = true) ->
  try_block json_loads str_lower net k (emit_all (failed_attempts (build_request d) k) d)
  = (emit (requests_post (build_request d))
       (emit_all (failed_attempts (build_request d) k) d),
     CaughtException e) ->
  process_response json_loads str_lower fuel net d
  = Some (emit_all (failed_attempts (build_request d) k
                    ++ [ requests_post (build_request d);
                         run_on_main (chat_display_append_error e);
                         enable_send ]) d).
Proof.
  intros Hk Hfuel Hfail Htry. unfold process_response.
  replace fuel with (k + S (fuel - k - 1)) by lia.
  rewrite loop_failures; [| intros j Hj; apply Hfail; lia | lia].
  assert (E : (0 + Z.of_nat k <? config_get (max_retries (config d)) 3)%Z = true)
    by (apply Z.ltb_lt; lia).
  cbn [process_loop]. rewrite E. change (0 + k) with k. rewrite Htry.
  rewrite !emit_emit_all, !emit_all_app, <- ?app_assoc. reflexivity.
Qed.

(** X1.  Every send ends by enabling the send button again, and keeps
    what the trace already held. *)
Theorem process_response_enables_send
    (fuel : nat) (net : network) (d d' : LLMQuizDialog) :
  process_response json_loads str_lower fuel net d = Some d' ->
  exists es, trace d' = trace d ++ es ++ [enable_send].
Proof.
  intros H. destruct (process_loop_run _ _ _ _ _ _ H) as (es & Ht & _). eauto.
Qed.

(** X2.  A send makes at most [max_retries] requests, and none when
    [max_retries] is zero or negative. *)
Theorem process_response_attempts_bounded
    (fuel : nat) (net : network) (d d' : LLMQuizDialog) :
  process_response json_loads str_lower fuel net d = Some d' ->
  attempts (trace d') <= attempts (trace d) + Z.to_nat (config_get (max_retries (config d)) 3%Z).
Proof.
  intros H. destruct (process_loop_run _ _ _ _ _ _ H) as (es & Ht & Hat & _).
  rewrite Ht, !attempts_app. rewrite Z.sub_0_r in Hat.
  change (attempts [enable_send]) with 0. lia.
Qed.

(** X3.  Every request of a send is the request built from the history
    the send started with, and every pause lasts one second. *)
Theorem process_response_requests_and_pauses
    (fuel : nat) (net : network) (d d' : LLMQuizDialog) :
  process_response json_loads str_lower fuel net d = Some d' ->
  exists es,
    trace d' = trace d ++ es
    /\ Forall (fun e => is_post e = true -> e = requests_post (build_request d)) es
    /\ Forall (fun s => s = 1%Z) (sleeps es).
Proof.
  intros H. destruct (process_loop_run _ _ _ _ _ _ H) as (es & Ht & _ & Hpo & Hsl & _).
  exists (es ++ [enable_send]). split; [exact Ht|]. split.
  - apply Forall_app. split; [exact Hpo|]. constructor; [discriminate | constructor].
  - rewrite sleeps_app. change (sleeps [enable_send]) with (@nil Z).
    now rewrite app_nil_r.
Qed.

(** X4.  A send adds at most one message to the history, an assistant
    message, and leaves the question, the answer and the configuration
    of the dialog as they were. *)
Theorem process_response_at_most_one_reply
    (fuel : nat) (net : network) (d d' : LLMQuizDialog) :
  process_response json_loads str_lower fuel net d = Some d' ->
  at_most_one_reply (conversation_history d) (conversation_history d')
  /\ question d' = question d /\ answer d' = answer d /\ config d' = config d.
Proof.
  intros H. destruct (process_loop_run _ _ _ _ _ _ H) as (es & _ & _ & _ & _ & Hh). exact Hh.
Qed.

(** X5.  With [max_retries] zero or negative no request is made and
    nothing is displayed: the send only enables the button again. *)
Theorem process_response_without_retries
    (fuel : nat) (net : network) (d : LLMQuizDialog) :
  (config_get (max_retries (config d)) 3%Z <= 0)%Z ->
  process_response json_loads str_lower (S fuel) net d = Some (emit enable_send d).
Proof.
  intros H. unfold process_response. simpl.
  replace (0 <? config_get (max_retries (config d)) 3)%Z with false
    by (symmetry; apply Z.ltb_ge; lia).
  reflexivity.
Qed.



(** X8.  Without streaming, a body that does not give a reply string
    ([response.json()] or [extract_response_text] raises, or the value
    extracted is not a string) ends the send on the error path: the
    callback for the exception is posted, nothing is retried and the
    history is unchanged.  Run after the handler has ended, that
    callback raises [NameError] and shows nothing. *)
Theorem unusable_body_is_an_error
    (net : network) (d : LLMQuizDialog) (k fuel : nat) (resp : response) :
  (Z.of_nat k < config_get (max_retries (config d)) 3%Z)%Z ->
  k < fuel ->
  (forall i, i < k -> transient (net i (build_request d)) = true) ->
  net k (build_request d) = Returns resp ->
  status_code resp = 200%Z ->
  config_get (stream_responses (config d)) true = false ->
  (forall text, (result <- json resp ;; extract_response_text result) <> Ok (PStr text)) ->
  process_response json_loads str_lower fuel net d
  = Some (emit_all
            (failed_attempts (build_request d) k
             ++ [ requests_post (build_request d);
                  run_on_main
                    (chat_display_append_error
                       match (result <- json resp ;; extract_response_text result) with
                       | Raise e => e
                       | Ok _ => TypeError
                       end);
                  enable_send ]) d)
  /\ run_callback true
       (chat_display_append_error
          match (result <- json resp ;; extract_response_text result) with
          | Raise e => e
          | Ok _ => TypeError
          end)
     = CallbackRaises NameError.
Proof.
  intros Hk Hfuel Hfail Hnet Hstatus Hstream Hbody. split; [|reflexivity].
  apply process_response_caught; try assumption.
  unfold try_block. rewrite build_request_emit_all, Hnet, Hstatus. simpl.
  change (config (emit_all (failed_attempts (build_request d) k) d)) with (config d).
  rewrite Hstream.
  destruct (result <- json resp;; extract_response_text result) as [v|e]; [|reflexivity].
  destruct v; try reflexivity. exfalso. now apply (Hbody s).
Qed.

End Send.

Lemma process_response_enables_send_witness :
  exists d' es,
    process_response JsonSubset.json_loads AsciiLower.str_lower 4
      Example.two_failures_then_success (Example.session Example.no_config) = Some d'
    /\ trace d' = trace (Example.session Example.no_config) ++ es ++ [enable_send].
Proof.
  assert (H : {d' | process_response JsonSubset.json_loads AsciiLower.str_lower 4
                      Example.two_failures_then_success
                      (Example.session Example.no_config) = Some d'})
    by (eexists; vm_compute; reflexivity).
  destruct H as [d' H]. exists d'.
  destruct (process_response_enables_send _ _ _ _ _ H) as [es Hes].
  exists es. split; assumption.
Defined.

Lemma process_response_attempts_bounded_witness :
  exists d',
    process_response JsonSubset.json_loads AsciiLower.str_lower 3
      Example.always_timeout (Example.session (Example.with_max_retries 2)) = Some d'
    /\ attempts (trace d') <= 2.
Proof.
  assert (H : {d' | process_response JsonSubset.json_loads AsciiLower.str_lower 3
                      Example.always_timeout
                      (Example.session (Example.with_max_retries 2)) = Some d'})
    by (eexists; vm_compute; reflexivity).
  destruct H as [d' H]. exists d'. split; [exact H|].
  exact (process_response_attempts_bounded _ _ _ _ _ H).
Defined.

Lemma process_response_requests_and_pauses_witness :
  exists d' es,
    process_response JsonSubset.json_loads AsciiLower.str_lower 3
      Example.always_timeout (Example.session (Example.with_max_retries 2)) = Some d'
    /\ trace d' = trace (Example.session (Example.with_max_retries 2)) ++ es
    /\ Forall (fun s => s = 1%Z) (sleeps es).
Proof.
  assert (H : {d' | process_response JsonSubset.json_loads AsciiLower.str_lower 3
                      Example.always_timeout
                      (Example.session (Example.with_max_retries 2)) = Some d'})
    by (eexists; vm_compute; reflexivity).
  destruct H as [d' H]. exists d'.
  destruct (process_response_requests_and_pauses _ _ _ _ _ H) as (es & Ht & _ & Hs).
  exists es. repeat split; assumption.
Defined.

Lemma process_response_at_most_one_reply_witness :
  exists d',
    process_response JsonSubset.json_loads AsciiLower.str_lower 4
      Example.two_failures_then_success (Example.session Example.no_config) = Some d'
    /\ at_most_one_reply (conversation_history (Example.session Example.no_config))
         (conversation_history d').
Proof.
  assert (H : {d' | process_response JsonSubset.json_loads AsciiLower.str_lower 4
                      Example.two_failures_then_success
                      (Example.session Example.no_config) = Some d'})
    by (eexists; vm_compute; reflexivity).
  destruct H as [d' H]. exists d'. split; [exact H|].
  exact (proj1 (process_response_at_most_one_reply _ _ _ _ _ H)).
Defined.

Lemma process_response_without_retries_witness :
  attempts
    (trace (match process_response JsonSubset.json_loads AsciiLower.str_lower 1
                    Example.always_timeout (Example.session (Example.with_max_retries 0)) with
            | Some d' => d'
            | None => Example.session (Example.with_max_retries 0)
            end)) = 0.
Proof.
  rewrite (@process_response_without_retries JsonSubset.json_loads AsciiLower.str_lower 0
             Example.always_timeout (Example.session (Example.with_max_retries 0))
             ltac:(vm_compute; discriminate)).
  reflexivity.
Defined.



Lemma unusable_body_is_an_error_witness :
  option_map conversation_history
    (process_response JsonSubset.json_loads AsciiLower.str_lower 1
       (Example.always (Example.json_response "{'choices':[{'message':{'content':null}}]}"))
       (Example.session Example.not_streaming))
  = Some (conversation_history (Example.session Example.not_streaming)).
Proof.
  rewrite (proj1 (@unusable_body_is_an_error JsonSubset.json_loads AsciiLower.str_lower
             (Example.always
                (Example.json_response "{'choices':[{'message':{'content':null}}]}"))
             (Example.session Example.not_streaming) 0 1
             (Example.json_response "{'choices':[{'message':{'content':null}}]}")
             ltac:(reflexivity) ltac:(lia) ltac:(intros i Hi; lia) eq_refl eq_refl eq_refl
             ltac:(intros text; vm_compute; discriminate))).
  reflexivity.
Defined.

(** ** A streamed reply *)

Section Streamed.

Variable json_loads : str -> result pyval.

(** X9.  What [handle_stream_response] does on the display: the marker
    of the quiz, then each decoded delta as it is (reasoning spans and
    tags included), then the failure if the stream failed; the flag
    [is_streaming] is down afterwards. *)
Theorem handle_stream_response_display (resp : response) (d : LLMQuizDialog) :
  trace (handle_stream_response json_loads resp d)
  = trace d
    ++ run_on_main (chat_display_append (lit "<b>Quiz:</b> "))
       :: map (fun c => run_on_main (append_stream_text_safely c))
            (fst (stream_deltas json_loads (iter_lines resp)))
    ++ match stream_failure json_loads resp with
       | Some e => [run_on_main (chat_display_append_streaming_failed e)]
       | None => []
       end
  /\ streamed (trace (handle_stream_response json_loads resp d))
     = streamed (trace d) ++ fst (stream_deltas json_loads (iter_lines resp))
  /\ is_streaming (handle_stream_response json_loads resp d) = false.
Proof.
  assert (Hstreamed : forall ds,
             streamed (map (fun c => run_on_main (append_stream_text_safely c)) ds) = ds).
  { induction ds as [|c ds IH]; [reflexivity|]. unfold streamed in *. simpl. now rewrite IH. }
  assert (Happ : forall t1 t2, streamed (t1 ++ t2) = streamed t1 ++ streamed t2).
  { intros. unfold streamed. apply flat_map_app. }
  assert (Htrace :
    trace (handle_stream_response json_loads resp d)
    = trace d
      ++ run_on_main (chat_display_append (lit "<b>Quiz:</b> "))
         :: map (fun c => run_on_main (append_stream_text_safely c))
              (fst (stream_deltas json_loads (iter_lines resp)))
      ++ match stream_failure json_loads resp with
         | Some e => [run_on_main (chat_display_append_streaming_failed e)]
         | None => []
         end
    /\ is_streaming (handle_stream_response json_loads resp d) = false).
  { unfold handle_stream_response, stream_failure.
    pose proof (stream_lines_trace json_loads (iter_lines resp) []
                  (emit (run_on_main (chat_display_append (lit "<b>Quiz:</b> ")))
                        (set_is_streaming true d))) as H.
    destruct (stream_lines json_loads (iter_lines resp) [] _) as [[full d1] raised].
    destruct H as (_ & -> & ->).
    destruct (snd (stream_deltas json_loads (iter_lines resp))) as [e|];
      [|destruct (iter_end resp) as [|e]];
      destruct (truthy (PStr full)); simpl; rewrite <- ?app_assoc; simpl;
      rewrite ?app_nil_r; split; reflexivity. }
  destruct Htrace as [Htrace Hflag]. split; [exact Htrace|]. split; [|exact Hflag].
  rewrite Htrace, Happ. f_equal.
  change (run_on_main (chat_display_append (lit "<b>Quiz:</b> ")) :: ?l)
    with ([run_on_main (chat_display_append (lit "<b>Quiz:</b> "))] ++ l).
  rewrite !Happ, Hstreamed.
  destruct (stream_failure json_loads resp); simpl; now rewrite app_nil_r.
Qed.

(** X10.  The decoder never yields an empty delta. *)
Theorem stream_deltas_not_empty (lines : list bytes) :
  Forall (fun c => c <> []) (fst (stream_deltas json_loads lines)).
Proof.
  induction lines as [|line lines IH]; simpl; [constructor|].
  destruct (stream_line json_loads line) as [[content|]|e] eqn:Hline; simpl.
  - destruct (stream_deltas json_loads lines) as [deltas raised]. simpl in *.
    constructor; [|exact IH]. intros ->.
    unfold stream_line in Hline.
    destruct line; [discriminate|].
    destruct (decode _); [|discriminate].
    destruct (startswith _ _); [|discriminate].
    destruct (json_loads _) as [v|e0]; [|destruct e0; discriminate].
    repeat match type of Hline with
           | Py.bind ?x _ = _ => destruct x; simpl in Hline; try discriminate
           | (if ?b then _ else _) = _ => destruct b eqn:?; try discriminate
           | match ?x with PStr _ => _ | _ => _ end = _ => destruct x; try discriminate
           end.
    injection Hline as ->. discriminate.
  - exact IH.
  - constructor.
Qed.

(** X11.  Decoding is sequential: as long as no line aborts, the deltas
    of two runs of lines are the deltas of the first followed by those
    of the second; after a line that aborts, the rest is not read. *)
Theorem stream_deltas_app (lines1 lines2 : list bytes) :
  stream_deltas json_loads (lines1 ++ lines2)
  = match snd (stream_deltas json_loads lines1) with
    | None =>
        (fst (stream_deltas json_loads lines1) ++ fst (stream_deltas json_loads lines2),
         snd (stream_deltas json_loads lines2))
    | Some e => stream_deltas json_loads lines1
    end.
Proof.
  induction lines1 as [|line lines1 IH]; simpl.
  - now destruct (stream_deltas json_loads lines2).
  - destruct (stream_line json_loads line) as [[content|]|e]; simpl.
    + rewrite IH. destruct (stream_deltas json_loads lines1) as [deltas [e|]]; reflexivity.
    + exact IH.
    + reflexivity.
Qed.

End Streamed.

(** ** Submitting an answer *)

Lemma dropwhile_all (f : char -> bool) (s : str) :
  forallb f s = true -> dropwhile f s = [].
Proof.
  induction s as [|c s IH]; [reflexivity|]. simpl.
  destruct (f c); [exact IH | discriminate].
Qed.

Lemma dropwhile_keeps (f : char -> bool) (s : str) (c : char) :
  In c s -> f c = false -> dropwhile f s <> [].
Proof.
  induction s as [|x s IH]; [contradiction|]. simpl. intros [-> | Hin] Hc.
  - rewrite Hc. discriminate.
  - destruct (f x); [auto | discriminate].
Qed.

Lemma strip_blank (s : str) : forallb isspace s = true -> strip s = [].
Proof. intros H. unfold strip, lstrip, rstrip. now rewrite (dropwhile_all _ _ H). Qed.

Lemma strip_not_blank (s : str) : forallb isspace s = false -> strip s <> [].
Proof.
  intros H. unfold strip, lstrip, rstrip.
  assert (Hex : exists c, In c s /\ isspace c = false).
  { induction s as [|x s IH]; [discriminate|]. simpl in H.
    destruct (isspace x) eqn:Hx.
    - destruct (IH H) as (c & Hin & Hc). exists c. split; [now right | exact Hc].
    - exists x. split; [now left | exact Hx]. }
  destruct Hex as (c & Hin & Hc).
  pose proof (dropwhile_keeps isspace s c Hin Hc) as Hl.
  destruct (dropwhile isspace s) as [|y l] eqn:Hd; [congruence|].
  pose proof (dropwhile_head isspace s Hd) as Hy.
  intros Hrev. apply (f_equal (@rev char)) in Hrev. rewrite rev_involutive in Hrev.
  apply (dropwhile_keeps isspace (rev (y :: l)) y); [|exact Hy | exact Hrev].
  apply in_rev. rewrite rev_involutive. now left.
Qed.

(** X12.  [send_message] does nothing at all when the input is empty or
    made of white space only; otherwise it records the input as it was
    typed (surrounding white space included) as a user message, shows
    it, clears the input field, disables the send button and starts
    the worker. *)
Theorem send_message_blank_or_recorded (user_input : str) (d : LLMQuizDialog) :
  (forallb isspace user_input = true -> send_message user_input d = d)
  /\ (forallb isspace user_input = false ->
      conversation_history (send_message user_input d)
      = conversation_history d ++ [ {| role_of := user; content := user_input |} ]
      /\ trace (send_message user_input d)
         = trace d
           ++ [ call (chat_display_append (lit "<b>You:</b> " ++ user_input));
                call input_field_clear;
                call (send_button_setEnabled false);
                thread_start user_input ]).
Proof.
  unfold send_message. split; intros H.
  - now rewrite (strip_blank _ H).
  - pose proof (strip_not_blank _ H) as Hs.
    destruct (strip user_input) as [|c s]; [congruence|]. simpl.
    rewrite <- !app_assoc. split; reflexivity.
Qed.

Lemma send_message_blank_or_recorded_witness :
  send_message (lit "   ") (Example.session Example.no_config)
  = Example.session Example.no_config
  /\ conversation_history (send_message (lit " Paris ") (Example.session Example.no_config))
     = conversation_history (Example.session Example.no_config)
       ++ [ {| role_of := user; content := lit " Paris " |} ].
Proof.
  split.
  - exact (proj1 (send_message_blank_or_recorded (lit "   ")
                    (Example.session Example.no_config)) eq_refl).
  - exact (proj1 (proj2 (send_message_blank_or_recorded (lit " Paris ")
                           (Example.session Example.no_config)) eq_refl)).
Defined.

(** ** More on cleaning *)

Lemma sub_delete_none (match_at : str -> option nat) (s : str) :
  (forall p c s', s = p ++ c :: s' -> match_at (c :: s') = None) ->
  Re.sub_delete match_at 0 s = s.
Proof.
  induction s as [|c s IH]; intros Hno; [reflexivity|].
  simpl. rewrite (Hno [] c s eq_refl). f_equal. apply IH.
  intros p c' s' ->. exact (Hno (c :: p) c' s' eq_refl).
Qed.

Lemma lstrip_newlines_then_strip (s : str) : strip (lstrip_char NL s) = strip s.
Proof.
  unfold strip, lstrip, lstrip_char. f_equal.
  induction s as [|c s IH]; [reflexivity|]. cbn [dropwhile].
  destruct (N.eqb_spec NL c) as [<- | Hc]; [|reflexivity].
  change (isspace NL) with true. cbv iota. exact IH.
Qed.

(** X13.  A text without ['<'] is only trimmed. *)
Theorem clean_response_text_plain (text : str) :
  ~ In LT text -> clean_response_text text = strip text.
Proof.
  intros Hno. unfold clean_response_text.
  assert (Hsuffix : forall p c s', text = p ++ c :: s' -> c <> LT).
  { intros p c s' -> ->. apply Hno. apply in_or_app. right. now left. }
  rewrite (sub_delete_none Re.match_think).
  - assert (Hno' : ~ In LT (lstrip_char NL text)).
    { destruct (dropwhile_suffix (N.eqb NL) text) as [u Hu]. intros Hin. apply Hno.
      rewrite Hu. apply in_or_app. now right. }
    rewrite (sub_delete_none Re.match_tag).
    + apply lstrip_newlines_then_strip.
    + intros p c s' Heq. apply match_tag_needs_LT. intros ->. apply Hno'.
      rewrite Heq. apply in_or_app. right. now left.
  - intros p c s' Heq. apply match_think_needs_LT. exact (Hsuffix p c s' Heq).
Qed.

Lemma clean_response_text_plain_witness :
  clean_response_text (lit "  That is correct. ") = lit "That is correct.".
Proof.
  rewrite (@clean_response_text_plain (lit "  That is correct. ")
             ltac:(vm_compute; intuition discriminate)).
  reflexivity.
Defined.

Lemma sub_delete_length (match_at : str -> option nat) (s : str) :
  forall k, length (Re.sub_delete match_at k s) <= length s.
Proof.
  induction s as [|c s IH]; intros k; simpl; [lia|].
  destruct k as [|k]; [|specialize (IH k); lia].
  destruct (match_at (c :: s)) as [[|n]|]; simpl;
    [specialize (IH 0) | specialize (IH n) | specialize (IH 0)]; lia.
Qed.

Lemma dropwhile_length (f : char -> bool) (s : str) :
  length (dropwhile f s) <= length s.
Proof.
  destruct (dropwhile_suffix f s) as [u Hu]. rewrite Hu at 2. rewrite length_app. lia.
Qed.

(** *** What is left is what was there *)

Lemma subsequence_refl (A : Type) (l : list A) : subsequence l l.
Proof.
  induction l as [|x l IH]; [apply subsequence_nil | now apply subsequence_keep].
Qed.

Lemma subsequence_trans (A : Type) (l1 l2 l3 : list A) :
  subsequence l1 l2 -> subsequence l2 l3 -> subsequence l1 l3.
Proof.
  intros H12 H23. revert l1 H12.
  induction H23 as [| x l2 l3 _ IH | x l2 l3 _ IH]; intros l1 H12.
  - exact H12.
  - apply subsequence_drop. now apply IH.
  - inversion H12; subst.
    + apply subsequence_drop. now apply IH.
    + apply subsequence_keep. now apply IH.
Qed.

Lemma subsequence_suffix (A : Type) (u l : list A) : subsequence l (u ++ l).
Proof.
  induction u as [|x u IH]; [apply subsequence_refl | now apply subsequence_drop].
Qed.

Lemma subsequence_prefix (A : Type) (l t : list A) : subsequence l (l ++ t).
Proof.
  induction l as [|x l IH]; cbn.
  - induction t as [|x t IH]; [apply subsequence_nil | now apply subsequence_drop].
  - now apply subsequence_keep.
Qed.

Lemma sub_delete_subsequence (match_at : str -> option nat) (s : str) :
  forall k, subsequence (Re.sub_delete match_at k s) s.
Proof.
  induction s as [|c s IH]; intros k; cbn [Re.sub_delete]; [apply subsequence_nil|].
  destruct k as [|k]; [|apply subsequence_drop; apply IH].
  destruct (match_at (c :: s)) as [[|n]|];
    first [apply subsequence_keep; apply IH | apply subsequence_drop; apply IH].
Qed.

(** X14.  Cleaning only removes: the result is the text with some of
    its characters taken out, the others being left in their order;
    so it is never longer than the text, and each of its characters
    is a character of the text. *)
Theorem clean_response_text_only_removes (text : str) :
  subsequence (clean_response_text text) text
  /\ length (clean_response_text text) <= length text
  /\ forall c, In c (clean_response_text text) -> In c text.
Proof.
  split.
  { unfold clean_response_text.
    set (t1 := Re.sub_delete Re.match_think 0 text).
    set (t2 := lstrip_char NL t1).
    set (t3 := Re.sub_delete Re.match_tag 0 t2).
    apply subsequence_trans with (l2 := t1); [|apply sub_delete_subsequence].
    apply subsequence_trans with (l2 := t2).
    2:{ destruct (dropwhile_suffix (N.eqb NL) t1) as [u Hu].
        fold (lstrip_char NL t1) in Hu. fold t2 in Hu. rewrite Hu.
        apply subsequence_suffix. }
    apply subsequence_trans with (l2 := t3); [|apply sub_delete_subsequence].
    destruct (strip_between t3) as (u & t & H3). rewrite H3 at 2.
    apply subsequence_trans with (l2 := strip t3 ++ t);
      [apply subsequence_prefix | apply subsequence_suffix]. }
  unfold clean_response_text.
  set (t1 := Re.sub_delete Re.match_think 0 text).
  set (t2 := lstrip_char NL t1).
  set (t3 := Re.sub_delete Re.match_tag 0 t2).
  destruct (strip_between t3) as (u & t & H3).
  destruct (dropwhile_suffix (N.eqb NL) t1) as [u2 H2]. fold (lstrip_char NL t1) in H2.
  fold t2 in H2.
  split.
  - pose proof (sub_delete_length Re.match_think text 0) as L1. fold t1 in L1.
    pose proof (dropwhile_length (N.eqb NL) t1) as L2. fold (lstrip_char NL t1) in L2.
    fold t2 in L2.
    pose proof (sub_delete_length Re.match_tag t2 0) as L3. fold t3 in L3.
    apply (f_equal (@length char)) in H3. rewrite !length_app in H3. lia.
  - intros c Hin.
    apply (sub_delete_In Re.match_think c text 0). fold t1.
    rewrite H2. apply in_or_app. right.
    apply (sub_delete_In Re.match_tag c t2 0). fold t3.
    rewrite H3. apply in_or_app. right. apply in_or_app. now left.
Qed.

Lemma startswith_split (n s : str) :
  startswith n s = true -> exists post, s = n ++ post.
Proof.
  revert s. induction n as [|c n IH]; intros s; [now exists s|].
  destruct s as [|x s]; simpl; [discriminate|].
  intros H. apply andb_prop in H. destruct H as [Hc H].
  apply N.eqb_eq in Hc. subst x. destruct (IH s H) as [post ->]. now exists post.
Qed.

Lemma find_occurs (n s : str) (i : nat) :
  find n s = Some i -> exists pre post, s = pre ++ n ++ post.
Proof.
  revert i. induction s as [|x s IH]; intros i; cbn [find].
  - destruct (startswith n []) eqn:Hs; [|discriminate].
    intros _. destruct (startswith_split n [] Hs) as [post H]. now exists [], post.
  - destruct (startswith n (x :: s)) eqn:Hs.
    + intros _. destruct (startswith_split n (x :: s) Hs) as [post H]. now exists [], post.
    + destruct (find n s) as [j|]; [|discriminate]. intros _.
      destruct (IH j eq_refl) as (pre & post & ->). now exists (x :: pre), post.
Qed.

Lemma tag_free_no_think (s : str) : tag_free s -> find Re.think_open s = None.
Proof.
  intros Hfree. destruct (find Re.think_open s) as [i|] eqn:Hfind; [|reflexivity].
  exfalso. destruct (@find_occurs Re.think_open s i Hfind) as (pre & post & ->).
  apply (@tag_free_no_tag pre (lit "think") post).
  - exact Hfree.
  - discriminate.
  - vm_compute. intuition discriminate.
Qed.

Lemma run_to_gt_closed (s : str) : snd (Re.run_to_gt s) = true -> In GT s.
Proof.
  induction s as [|c s IH]; simpl; [discriminate|].
  destruct (N.eqb_spec c GT) as [-> | _]; [now left|].
  destruct (Re.run_to_gt s) as [n closed]. simpl in *. auto.
Qed.

Lemma match_tag_free (c : char) (s : str) :
  tag_free (c :: s) -> Re.match_tag (c :: s) = None.
Proof.
  intros [Hc _]. unfold Re.match_tag.
  destruct (N.eqb_spec c LT) as [E|_]; [|reflexivity].
  destruct (Hc E) as [Hhead | Hnone].
  - destruct s as [|x s]; [reflexivity|]. subst x. reflexivity.
  - pose proof (run_to_gt_closed s) as Hclosed.
    destruct (Re.run_to_gt s) as [[|n] [|]]; try reflexivity.
    exfalso. now apply Hnone, Hclosed.
Qed.

Lemma remove_tags_tag_free (s : str) : tag_free s -> remove_tags s = s.
Proof.
  intros Hfree. unfold remove_tags. apply sub_delete_none.
  intros p c s' ->. apply match_tag_free. exact (@tag_free_suffix p (c :: s') Hfree).
Qed.

Lemma dropwhile_head_kept (f : char -> bool) (c : char) (s : str) :
  f c = false -> dropwhile f (c :: s) = c :: s.
Proof. intros H. simpl. now rewrite H. Qed.

Lemma strip_strip (s : str) : strip (strip s) = strip s.
Proof.
  destruct (strip s) as [|c r] eqn:Hs; [reflexivity|].
  pose proof (@strip_first s c r Hs) as Hc.
  unfold strip at 1. unfold lstrip. rewrite (@dropwhile_head_kept isspace c r Hc).
  unfold rstrip. destruct (rev (c :: r)) as [|x y] eqn:Hrev.
  - apply (f_equal (@rev char)) in Hrev. rewrite rev_involutive in Hrev. discriminate.
  - assert (Hlast : c :: r = rev y ++ [x]).
    { apply (f_equal (@rev char)) in Hrev. now rewrite rev_involutive in Hrev. }
    rewrite Hlast in Hs. pose proof (@strip_last s x (rev y) Hs) as Hx.
    rewrite (@dropwhile_head_kept isspace x y Hx). simpl. now rewrite <- Hlast.
Qed.

(** X15.  Cleaning is idempotent: a cleaned text is left as it is. *)
Theorem clean_response_text_idempotent (text : str) :
  clean_response_text (clean_response_text text) = clean_response_text text.
Proof.
  pose proof (clean_response_text_tag_free text) as Hfree.
  assert (Hstrip : strip (clean_response_text text) = clean_response_text text)
    by (unfold clean_response_text; apply strip_strip).
  set (t := clean_response_text text) in *.
  change (clean_response_text t)
    with (strip (remove_tags (lstrip_char NL (remove_think t)))).
  rewrite (@remove_think_none t (@tag_free_no_think t Hfree)).
  assert (Hnl : lstrip_char NL t = t).
  { destruct t as [|c r] eqn:Ht; [reflexivity|].
    assert (Hc : isspace c = false).
    { apply (@strip_first t c r). now rewrite Ht. }
    unfold lstrip_char. apply dropwhile_head_kept.
    destruct (N.eqb_spec NL c) as [<- | _]; [discriminate | reflexivity]. }
  rewrite Hnl, (@remove_tags_tag_free t Hfree). exact Hstrip.
Qed.

(** ** The reply of a complete response *)

Lemma split_not_nil (sep : char) (s : str) : split sep s <> [].
Proof.
  destruct s as [|c s]; simpl; [discriminate|].
  destruct (N.eqb c sep); [discriminate|]. destruct (split sep s); discriminate.
Qed.

Lemma join_cons (sep w : str) (ws : list str) :
  ws <> [] -> join sep (w :: ws) = w ++ sep ++ join sep ws.
Proof. destruct ws; [congruence | reflexivity]. Qed.

Lemma join_cons_char (sep : str) (c : char) (w : str) (ws : list str) :
  join sep ((c :: w) :: ws) = c :: join sep (w :: ws).
Proof. destruct ws; reflexivity. Qed.

(** Joining the lines of a text gives the text back. *)
Lemma join_split (sep : char) (s : str) : join [sep] (split sep s) = s.
Proof.
  induction s as [|c s IH]; [reflexivity|]. simpl.
  destruct (N.eqb_spec c sep) as [-> | Hc].
  - rewrite join_cons by apply split_not_nil. simpl. now rewrite IH.
  - pose proof (split_not_nil sep s) as Hne.
    destruct (split sep s) as [|w ws]; [congruence|].
    rewrite join_cons_char. now rewrite IH.
Qed.

Lemma split_no_sep (sep : char) (s : str) :
  Forall (fun line => ~ In sep line) (split sep s).
Proof.
  induction s as [|c s IH]; simpl; [repeat constructor; auto|].
  destruct (N.eqb_spec c sep) as [-> | Hc].
  - constructor; [auto | exact IH].
  - destruct (split sep s) as [|w ws]; [repeat constructor; intros [H|[]]; congruence|].
    inversion IH as [|? ? Hw Hws]; subst. constructor; [|exact Hws].
    intros [H|H]; [congruence | auto].
Qed.

Lemma split_line (sep : char) (w : str) : ~ In sep w -> split sep w = [w].
Proof.
  induction w as [|c w IH]; [reflexivity|]. intros Hno. simpl.
  destruct (N.eqb_spec c sep) as [-> | Hc]; [exfalso; apply Hno; now left|].
  rewrite IH; [reflexivity|]. intros H. apply Hno. now right.
Qed.

Lemma split_line_sep (sep : char) (w t : str) :
  ~ In sep w -> split sep (w ++ sep :: t) = w :: split sep t.
Proof.
  induction w as [|c w IH]; intros Hno; simpl.
  - now rewrite N.eqb_refl.
  - destruct (N.eqb_spec c sep) as [-> | Hc]; [exfalso; apply Hno; now left|].
    rewrite IH; [reflexivity|]. intros H. apply Hno. now right.
Qed.

(** Splitting joined lines gives the lines back. *)
Lemma split_join (sep : char) (ls : list str) :
  ls <> [] -> Forall (fun line => ~ In sep line) ls ->
  split sep (join [sep] ls) = ls.
Proof.
  induction ls as [|w ls IH]; [congruence|]. intros _ Hall.
  inversion Hall as [|? ? Hw Hls]; subst.
  destruct ls as [|w' ls].
  - simpl. now apply split_line.
  - rewrite join_cons by discriminate. simpl app.
    rewrite split_line_sep by exact Hw. f_equal. apply IH; [discriminate | exact Hls].
Qed.

Lemma Forall_filter_true (A : Type) (p : A -> bool) (l : list A) :
  Forall (fun x => p x = true) (filter p l).
Proof.
  induction l as [|x l IH]; simpl; [constructor|].
  destruct (p x) eqn:Hx; [constructor; assumption | exact IH].
Qed.

Lemma Forall_filter_keeps (A : Type) (P : A -> Prop) (p : A -> bool) (l : list A) :
  Forall P l -> Forall P (filter p l).
Proof.
  induction 1 as [|x l Hx _ IH]; simpl; [constructor|].
  destruct (p x); [constructor; assumption | exact IH].
Qed.

Lemma filter_all (A : Type) (p : A -> bool) (l : list A) :
  Forall (fun x => p x = true) l -> filter p l = l.
Proof.
  induction 1 as [|x l Hx _ IH]; simpl; [reflexivity|]. now rewrite Hx, IH.
Qed.

Section Reply.

Variable str_lower : str -> str.

(** X16.  [add_assistant_response] appends nothing or one assistant
    message; what it appends is not blank, and is what it shows. *)
Theorem add_assistant_response_records_what_it_shows (response : str) (d : LLMQuizDialog) :
  add_assistant_response str_lower response d = d
  \/ exists text,
       strip text <> []
       /\ conversation_history (add_assistant_response str_lower response d)
          = conversation_history d ++ [assistant_message text]
       /\ trace (add_assistant_response str_lower response d)
          = trace d ++ [run_on_main (chat_display_append (lit "<b>Quiz:</b> " ++ text))].
Proof.
  unfold add_assistant_response.
  match goal with
  | |- context [truthy (PStr (strip ?t))] =>
      set (text := t); destruct (strip text) as [|c s] eqn:Hs
  end; [now left|].
  right. exists text. rewrite Hs. simpl. repeat split. discriminate.
Qed.

(** X17.  When the cleaned reply begins with [question:] (in any case)
    or repeats the question within its first thirty characters, no
    line beginning with [question:] is recorded. *)
Theorem question_lines_are_not_recorded (response : str) (d : LLMQuizDialog) (text : str) :
  startswith (lit "question:") (str_lower (clean_response_text response))
  || PyStr.contains (str_lower (question d))
       (slice_to 30 (str_lower (clean_response_text response))) = true ->
  conversation_history (add_assistant_response str_lower response d)
  = conversation_history d ++ [assistant_message text] ->
  Forall (fun line => startswith (lit "question:") (str_lower line) = false)
         (split NL text).
Proof.
  intros Hcond. unfold add_assistant_response. rewrite Hcond.
  set (keep := fun line : str => negb (startswith (lit "question:") (str_lower line))).
  set (ls := filter keep (split NL (clean_response_text response))).
  destruct (truthy (PStr (strip (join [NL] ls)))) eqn:Htruthy.
  - simpl. intros H. apply app_inj_tail in H. destruct H as [_ H].
    injection H as <-.
    assert (Hne : ls <> []).
    { intros E. rewrite E in Htruthy. discriminate. }
    rewrite split_join; [| exact Hne | apply Forall_filter_keeps, split_no_sep].
    subst ls. eapply Forall_impl; [|apply Forall_filter_true].
    intros line Hline. unfold keep in Hline. now apply negb_true_iff in Hline.
  - intros H. apply (f_equal (@length message)) in H. rewrite length_app in H.
    simpl in H. lia.
Qed.

(** X18.  When no line of the cleaned reply begins with [question:],
    the reply is recorded as cleaned, if it is not blank, whether or
    not it repeats the question: the test on the question removes
    nothing by itself. *)
Theorem reply_without_question_lines_is_kept (response : str) (d : LLMQuizDialog) :
  Forall (fun line => startswith (lit "question:") (str_lower line) = false)
         (split NL (clean_response_text response)) ->
  strip (clean_response_text response) <> [] ->
  conversation_history (add_assistant_response str_lower response d)
  = conversation_history d ++ [assistant_message (clean_response_text response)].
Proof.
  intros Hlines Hstrip. unfold add_assistant_response.
  assert (Hsame :
    (if startswith (lit "question:") (str_lower (clean_response_text response))
        || PyStr.contains (str_lower (question d))
             (slice_to 30 (str_lower (clean_response_text response)))
     then join [NL]
            (filter (fun line => negb (startswith (lit "question:") (str_lower line)))
                    (split NL (clean_response_text response)))
     else clean_response_text response)
    = clean_response_text response).
  { destruct (_ || _); [|reflexivity].
    rewrite filter_all; [apply join_split|].
    eapply Forall_impl; [|exact Hlines]. intros line Hline. cbv beta. now rewrite Hline. }
  rewrite Hsame.
  destruct (strip (clean_response_text response)) as [|c s]; [congruence|]. reflexivity.
Qed.

End Reply.

Lemma question_lines_are_not_recorded_witness :
  conversation_history
    (add_assistant_response AsciiLower.str_lower
       (lit "Question: What is the capital of France?" ++ [NL] ++ lit "Not quite.")
       (Example.session Example.no_config))
  = conversation_history (Example.session Example.no_config)
    ++ [assistant_message (lit "Not quite.")]
  /\ Forall (fun line => startswith (lit "question:") (AsciiLower.str_lower line) = false)
       (split NL (lit "Not quite.")).
Proof.
  assert (H : conversation_history
                (add_assistant_response AsciiLower.str_lower
                   (lit "Question: What is the capital of France?" ++ [NL] ++ lit "Not quite.")
                   (Example.session Example.no_config))
              = conversation_history (Example.session Example.no_config)
                ++ [assistant_message (lit "Not quite.")])
    by (vm_compute; reflexivity).
  split; [exact H|].
  exact (@question_lines_are_not_recorded AsciiLower.str_lower
           (lit "Question: What is the capital of France?" ++ [NL] ++ lit "Not quite.")
           (Example.session Example.no_config) (lit "Not quite.") eq_refl H).
Defined.

Lemma reply_without_question_lines_is_kept_witness :
  conversation_history
    (add_assistant_response AsciiLower.str_lower
       (lit "What is the capital of France? It is Paris.")
       (Example.session Example.no_config))
  = conversation_history (Example.session Example.no_config)
    ++ [assistant_message (lit "What is the capital of France? It is Paris.")].
Proof.
  exact (@reply_without_question_lines_is_kept AsciiLower.str_lower
           (lit "What is the capital of France? It is Paris.")
           (Example.session Example.no_config)
           ltac:(vm_compute; repeat constructor)
           ltac:(vm_compute; discriminate)).
Defined.

(** ** Opening the dialog *)

Lemma list_getitem_In (A : Type) (l : list A) (i : Z) (x : A) :
  list_getitem l i = Ok x ->
  In x l /\ (- Z.of_nat (length l) <= i < Z.of_nat (length l))%Z.
Proof.
  unfold list_getitem.
  destruct (i <? 0)%Z eqn:Hneg;
    (destruct (_ && _) eqn:Hrange; [|discriminate]);
    (destruct (nth_error l _) as [y|] eqn:Hnth; [|discriminate]);
    intros [= ->]; apply andb_prop in Hrange; destruct Hrange as [H0 Hn];
    apply Z.leb_le in H0; apply Z.ltb_lt in Hn;
    (split; [exact (nth_error_In _ _ Hnth)|]).
  - apply Z.ltb_lt in Hneg. lia.
  - apply Z.ltb_ge in Hneg. lia.
Qed.

Lemma list_getitem_in_range (A : Type) (l : list A) (i : Z) (default : A) :
  (- Z.of_nat (length l) <= i < Z.of_nat (length l))%Z ->
  list_getitem l i
  = Ok (nth (Z.to_nat (if (i <? 0)%Z then i + Z.of_nat (length l) else i)%Z) l default).
Proof.
  intros Hi. unfold list_getitem.
  set (j := if (i <? 0)%Z then (i + Z.of_nat (length l))%Z else i).
  assert (Hj : (0 <= j < Z.of_nat (length l))%Z).
  { subst j. destruct (i <? 0)%Z eqn:Hneg;
      [apply Z.ltb_lt in Hneg | apply Z.ltb_ge in Hneg]; lia. }
  replace ((0 <=? j)%Z && (j <? Z.of_nat (length l))%Z) with true
    by (symmetry; apply andb_true_intro; split; [apply Z.leb_le | apply Z.ltb_lt]; lia).
  rewrite (nth_error_nth' l default) by lia. reflexivity.
Qed.

Lemma list_getitem_below (A : Type) (l : list A) (i : Z) :
  (i < - Z.of_nat (length l))%Z -> list_getitem l i = Raise IndexError.
Proof.
  intros Hi. unfold list_getitem.
  replace (i <? 0)%Z with true by (symmetry; apply Z.ltb_lt; lia).
  replace (0 <=? i + Z.of_nat (length l))%Z with false
    by (symmetry; apply Z.leb_gt; lia).
  reflexivity.
Qed.

Section Init.

Variable str_format : str -> str -> str -> result str.

(** X19.  An index at or beyond the number of fields rejects the
    dialog with the configuration error, without prefix; an index
    below minus the number of fields passes that test and rejects the
    dialog with [IndexError] and the prefixed message.  In both cases
    [display_question] is not run. *)
Theorem init_rejects_bad_indexes
    (fields : list str) (qi ai : option Z) (cfg : addon_config) :
  let n := Z.of_nat (length fields) in
  let question_idx := config_get qi 0%Z in
  let answer_idx := config_get ai 1%Z in
  ((n <= question_idx \/ n <= answer_idx)%Z ->
   init str_format fields qi ai cfg = Rejected out_of_range false)
  /\ ((question_idx < n)%Z -> (answer_idx < n)%Z ->
      (question_idx < - n \/ answer_idx < - n)%Z ->
      init str_format fields qi ai cfg = Rejected IndexError true).
Proof.
  intros n question_idx answer_idx. unfold init. fold question_idx answer_idx n. split.
  - intros H.
    replace ((question_idx >=? n)%Z || (answer_idx >=? n)%Z) with true; [reflexivity|].
    symmetry. apply orb_true_iff. rewrite !Z.geb_leb, !Z.leb_le. exact H.
  - intros Hq Ha H.
    replace ((question_idx >=? n)%Z || (answer_idx >=? n)%Z) with false
      by (symmetry; apply orb_false_iff; rewrite !Z.geb_leb, !Z.leb_gt; lia).
    destruct (Z_lt_dec question_idx (- n)) as [Hlow|Hok].
    + now rewrite (@list_getitem_below str fields question_idx Hlow).
    + destruct H as [H|H]; [lia|].
      rewrite (@list_getitem_in_range str fields question_idx [] ltac:(subst n; lia)).
      now rewrite (@list_getitem_below str fields answer_idx H).
Qed.

(** X20.  With both indexes in range, a negative one counting from the
    end, and a template that does not raise, the dialog opens on the
    two fields the indexes designate, with the system message as its
    whole history. *)
Theorem init_opens_on_the_fields
    (fields : list str) (qi ai : option Z) (cfg : addon_config) (prompt : str) :
  let n := Z.of_nat (length fields) in
  let question_idx := config_get qi 0%Z in
  let answer_idx := config_get ai 1%Z in
  let q := nth (Z.to_nat (if (question_idx <? 0) then question_idx + n else question_idx)%Z)
               fields [] in
  let a := nth (Z.to_nat (if (answer_idx <? 0) then answer_idx + n else answer_idx)%Z)
               fields [] in
  (- n <= question_idx < n)%Z ->
  (- n <= answer_idx < n)%Z ->
  str_format (config_get (system_prompt cfg) default_prompt) q a = Ok prompt ->
  exists d,
    init str_format fields qi ai cfg = Opened d
    /\ question d = q /\ answer d = a /\ config d = cfg
    /\ conversation_history d = [ {| role_of := system; content := prompt |} ]
    /\ trace d = [ call chat_display_clear; call chat_display_clear;
                   call (chat_display_append (lit "<b>Quiz:</b> Question: " ++ q)) ].
Proof.
  intros n question_idx answer_idx q a Hq Ha Hformat.
  unfold init. fold question_idx answer_idx n.
  replace ((question_idx >=? n)%Z || (answer_idx >=? n)%Z) with false
    by (symmetry; apply orb_false_iff; rewrite !Z.geb_leb, !Z.leb_gt; lia).
  rewrite (@list_getitem_in_range str fields question_idx [] Hq).
  rewrite (@list_getitem_in_range str fields answer_idx [] Ha).
  fold n q a. unfold display_question. simpl. rewrite Hformat. simpl.
  eexists. repeat split.
Qed.

(** X21.  A dialog that opens has the system message as its whole
    history, the given configuration, and a question and an answer
    that are fields of the note. *)
Theorem init_opened
    (fields : list str) (qi ai : option Z) (cfg : addon_config) (d : LLMQuizDialog) :
  init str_format fields qi ai cfg = Opened d ->
  In (question d) fields /\ In (answer d) fields /\ config d = cfg
  /\ exists prompt,
       conversation_history d = [ {| role_of := system; content := prompt |} ].
Proof.
  unfold init.
  destruct (_ || _); [unfold reject, out_of_range; discriminate|].
  destruct (list_getitem fields (config_get qi 0%Z)) as [q|e] eqn:Hq;
    [|destruct e; discriminate].
  destruct (list_getitem fields (config_get ai 1%Z)) as [a|e] eqn:Ha;
    [|destruct e; discriminate].
  apply list_getitem_In in Hq, Ha. destruct Hq as [Hq _]. destruct Ha as [Ha _].
  unfold display_question. simpl.
  destruct (str_format _ q a) as [prompt|e].
  - intros [= <-]. simpl. repeat split; try assumption. eexists. reflexivity.
  - destruct e; try discriminate.
    intros [= <-]. simpl. repeat split; try assumption. eexists. reflexivity.
Qed.

End Init.

Lemma init_rejects_bad_indexes_witness :
  init FormatSubset.str_format [lit "Capital of France?"; lit "Paris"] (Some 2%Z) None
    Example.no_config
  = Rejected out_of_range false
  /\ init FormatSubset.str_format [lit "Capital of France?"; lit "Paris"] (Some (-3)%Z) None
       Example.no_config
     = Rejected IndexError true.
Proof.
  split.
  - exact (proj1 (@init_rejects_bad_indexes FormatSubset.str_format
                    [lit "Capital of France?"; lit "Paris"] (Some 2%Z) None
                    Example.no_config) ltac:(simpl; lia)).
  - exact (proj2 (@init_rejects_bad_indexes FormatSubset.str_format
                    [lit "Capital of France?"; lit "Paris"] (Some (-3)%Z) None
                    Example.no_config)
             ltac:(simpl; lia) ltac:(simpl; lia) ltac:(simpl; lia)).
Defined.

Lemma init_opens_on_the_fields_witness :
  exists d,
    init FormatSubset.str_format [lit "Capital of France?"; lit "Paris"]
      (Some (-2)%Z) (Some (-1)%Z) (Example.with_template (lit "{question} -> {answer}"))
    = Opened d
    /\ question d = lit "Capital of France?" /\ answer d = lit "Paris".
Proof.
  destruct (@init_opens_on_the_fields FormatSubset.str_format
              [lit "Capital of France?"; lit "Paris"] (Some (-2)%Z) (Some (-1)%Z)
              (Example.with_template (lit "{question} -> {answer}"))
              (lit "Capital of France? -> Paris")
              ltac:(simpl; lia) ltac:(simpl; lia) ltac:(vm_compute; reflexivity))
    as (d & Hinit & Hq & Ha & _).
  exists d. repeat split; assumption.
Defined.

Lemma init_opened_witness :
  exists d,
    init FormatSubset.str_format [lit "Capital of France?"; lit "Paris"] None None
      Example.no_config = Opened d
    /\ In (question d) [lit "Capital of France?"; lit "Paris"].
Proof.
  assert (H : {d | init FormatSubset.str_format [lit "Capital of France?"; lit "Paris"]
                     None None Example.no_config = Opened d})
    by (eexists; vm_compute; reflexivity).
  destruct H as [d H]. exists d. split; [exact H|].
  exact (proj1 (@init_opened FormatSubset.str_format _ _ _ _ _ H)).
Defined.

(** ** Saving the configuration *)

(** X22.  [save_settings] always saves one configuration and closes
    the dialog, with the texts and boxes of the form as they are; the
    four numbers are taken together: when the four texts convert, they
    are the four values, and when any one does not, a warning is shown
    and all four get their defaults (0, 1, 30 and 3), those that
    convert included. *)
Theorem save_settings_numbers_all_or_nothing
    (py_int : str -> option Z) (f : ConfigDialog.form) :
  exists c,
    ConfigDialog.saved (ConfigDialog.save_settings py_int f) = Some c
    /\ last (ConfigDialog.save_settings py_int f) ConfigDialog.showInfo_saved
       = ConfigDialog.accept
    /\ ConfigDialog.cfg_llm_studio_url c = ConfigDialog.lm_studio_url f
    /\ ConfigDialog.cfg_use_openai c = ConfigDialog.use_openai f
    /\ ConfigDialog.cfg_openai_api_key c = ConfigDialog.openai_key f
    /\ ConfigDialog.cfg_openai_model c = ConfigDialog.openai_model f
    /\ ConfigDialog.cfg_system_prompt c = ConfigDialog.system_prompt f
    /\ ConfigDialog.cfg_stream_responses c = ConfigDialog.stream_responses f
    /\ ConfigDialog.cfg_debug_mode c = ConfigDialog.debug_mode f
    /\ ((py_int (ConfigDialog.question_idx f) = Some (ConfigDialog.cfg_question_field_index c)
         /\ py_int (ConfigDialog.answer_idx f) = Some (ConfigDialog.cfg_answer_field_index c)
         /\ py_int (ConfigDialog.timeout f) = Some (ConfigDialog.cfg_timeout c)
         /\ py_int (ConfigDialog.max_retries f) = Some (ConfigDialog.cfg_max_retries c)
         /\ ~ In ConfigDialog.showInfo_using_defaults (ConfigDialog.save_settings py_int f))
        \/ ((py_int (ConfigDialog.question_idx f) = None
             \/ py_int (ConfigDialog.answer_idx f) = None
             \/ py_int (ConfigDialog.timeout f) = None
             \/ py_int (ConfigDialog.max_retries f) = None)
            /\ ConfigDialog.cfg_question_field_index c = 0%Z
            /\ ConfigDialog.cfg_answer_field_index c = 1%Z
            /\ ConfigDialog.cfg_timeout c = 30%Z
            /\ ConfigDialog.cfg_max_retries c = 3%Z
            /\ In ConfigDialog.showInfo_using_defaults
                  (ConfigDialog.save_settings py_int f))).
Proof.
  unfold ConfigDialog.save_settings, ConfigDialog.numeric_fields.
  destruct (py_int (ConfigDialog.question_idx f)) as [q|] eqn:Hq;
    [destruct (py_int (ConfigDialog.answer_idx f)) as [a|] eqn:Ha;
     [destruct (py_int (ConfigDialog.timeout f)) as [t|] eqn:Ht;
      [destruct (py_int (ConfigDialog.max_retries f)) as [r|] eqn:Hr|]|]|];
    eexists; (split; [reflexivity|]); simpl; repeat split; auto.
  left. repeat split; auto. intros [H|[H|[H|[]]]]; discriminate.
  all: right; repeat split; auto.
Qed.

(** ** The button on the card *)

Lemma eqb_eq (a b : str) : PyStr.eqb a b = true <-> a = b.
Proof.
  revert b. induction a as [|x a IH]; intros [|y b]; simpl; split;
    try discriminate; try reflexivity.
  - intros H. apply andb_prop in H. destruct H as [Hx H].
    apply N.eqb_eq in Hx. apply IH in H. now subst.
  - intros [= -> ->]. rewrite N.eqb_refl. now apply IH.
Qed.

(** X23.  [add_llm_button] never alters the page it is given: the
    result is the page followed by a suffix, and the suffix is empty
    exactly when the kind is neither [reviewQuestion] nor
    [reviewAnswer]. *)
Theorem add_llm_button_appends (html kind : str) :
  exists suffix,
    add_llm_button html kind = html ++ suffix
    /\ (suffix = [] <-> kind <> lit "reviewQuestion" /\ kind <> lit "reviewAnswer").
Proof.
  unfold add_llm_button.
  destruct (PyStr.eqb kind (lit "reviewQuestion")) eqn:Hq.
  - eexists. split; [reflexivity|]. apply eqb_eq in Hq. split.
    + discriminate.
    + intros [H _]. contradiction.
  - destruct (PyStr.eqb kind (lit "reviewAnswer")) eqn:Ha; simpl.
    + eexists. split; [reflexivity|]. apply eqb_eq in Ha. split.
      * discriminate.
      * intros [_ H]. contradiction.
    + exists []. split; [now rewrite app_nil_r|]. split; [|reflexivity].
      intros _. split; intros E; apply eqb_eq in E; congruence.
Qed.

(** ** Lines without payload *)

(** X24.  A line that is blank, not UTF-8, without the marker, or
    whose payload [json.loads] refuses with [JSONDecodeError] is
    transparent: with or without it the decoder yields the same deltas
    and ends the same way, wherever the line stands.  (A payload on
    which [json.loads] raises another exception is not such a line: it
    ends the loop.) *)
Theorem stream_deltas_skips_noise
    (json_loads : str -> result pyval) (lines1 : list bytes) (line : bytes)
    (lines2 : list bytes) :
  noise json_loads line ->
  stream_deltas json_loads (lines1 ++ line :: lines2)
  = stream_deltas json_loads (lines1 ++ lines2).
Proof.
  intros Hline. induction lines1 as [|l lines1 IH]; simpl.
  - now rewrite (@stream_line_noise json_loads line Hline).
  - destruct (stream_line json_loads l) as [[content|]|e]; [|exact IH | reflexivity].
    now rewrite IH.
Qed.

Lemma stream_deltas_skips_noise_witness :
  stream_deltas JsonSubset.json_loads
    ([Example.line_Hel] ++ Example.line_not_json :: [Example.line_lo])
  = stream_deltas JsonSubset.json_loads ([Example.line_Hel] ++ [Example.line_lo]).
Proof.
  exact (@stream_deltas_skips_noise JsonSubset.json_loads [Example.line_Hel]
           Example.line_not_json [Example.line_lo] (or_intror eq_refl)).
Defined.

Lemma process_response_terminates_witness :
  exists d',
    process_response JsonSubset.json_loads AsciiLower.str_lower 4
      Example.always_timeout (Example.session Example.no_config) = Some d'.
Proof.
  exact (@process_response_terminates JsonSubset.json_loads AsciiLower.str_lower
           Example.always_timeout (Example.session Example.no_config) 4
           ltac:(simpl; lia)).
Defined.
